(** * A shallow embedding of the MilCubes API client (MilCubes/api.py)

    Python values are JSON-shaped values; dictionaries are association lists
    kept in insertion order, as Python dicts are.  Objects are their instance
    attribute dictionary ([__dict__]); Project instances live in a heap so that
    aliasing is observable.  HTTP traffic goes through a server function that
    answers each request; every request is appended to a log.  Exception
    messages are not modelled, only the exception class. *)

From Stdlib Require Import String Ascii ZArith List Bool Lia Permutation.
Import ListNotations.
Open Scope string_scope.
Open Scope Z_scope.
Set Warnings "-register-all".


(** ** Python values *)

(** JSON-shaped Python values (numbers are integers; no floats). *)
Inductive value : Type :=
| VNone
| VBool (b : bool)
| VInt (z : Z)
| VStr (s : string)
| VList (l : list value)
| VDict (d : list (string * value)).

Definition dict := list (string * value).

(** [d.get(k)]: the value stored under [k]. *)
Fixpoint dict_get {A} (k : string) (d : list (string * A)) : option A :=
  match d with
  | [] => None
  | (k', v) :: d' => if String.eqb k k' then Some v else dict_get k d'
  end.

Definition dict_mem {A} (k : string) (d : list (string * A)) : bool :=
  match dict_get k d with Some _ => true | None => false end.

(** [d[k] = v]: overwrite in place when present, append otherwise. *)
Fixpoint dict_set {A} (k : string) (v : A) (d : list (string * A)) : list (string * A) :=
  match d with
  | [] => [(k, v)]
  | (k', v') :: d' =>
      if String.eqb k k' then (k, v) :: d' else (k', v') :: dict_set k v d'
  end.

Definition keys {A} (d : list (string * A)) : list string := map fst d.

(** Truthiness, [bool(v)]. *)
Definition truthy (v : value) : bool :=
  match v with
  | VNone => false
  | VBool b => b
  | VInt z => negb (z =? 0)
  | VStr s => negb (String.eqb s "")
  | VList l => match l with [] => false | _ => true end
  | VDict d => match d with [] => false | _ => true end
  end.

(** [a or b]. *)
Definition py_or (a b : value) : value := if truthy a then a else b.

(** Python [==] on values: [True == 1], lists elementwise, dicts regardless
    of key order. *)
Fixpoint py_eq (a b : value) : bool :=
  match a, b with
  | VNone, VNone => true
  | VBool x, VBool y => Bool.eqb x y
  | VBool x, VInt z => (if x then 1 else 0) =? z
  | VInt z, VBool y => z =? (if y then 1 else 0)
  | VInt x, VInt y => x =? y
  | VStr x, VStr y => String.eqb x y
  | VList la, VList lb =>
      (fix go (la lb : list value) : bool :=
         match la, lb with
         | [], [] => true
         | x :: la', y :: lb' => py_eq x y && go la' lb'
         | _, _ => false
         end) la lb
  | VDict da, VDict db =>
      Nat.eqb (length da) (length db) &&
      (fix go (da : list (string * value)) : bool :=
         match da with
         | [] => true
         | (k, x) :: da' =>
             match dict_get k db with
             | Some y => py_eq x y && go da'
             | None => false
             end
         end) da
  | _, _ => false
  end.

(** ** Exceptions *)

(** The [OSError] subclasses of the errnos [ENOENT], [EEXIST], [EISDIR],
    [ENOTDIR]; [NameTooLong] is the plain [OSError] of [ENAMETOOLONG];
    [OSGeneric] is a plain [OSError] raised by [raise IOError(...)]. *)
Inductive os_error :=
  FileNotFound | FileExists | IsADirectory | NotADirectory | NameTooLong | OSGeneric.

Inductive exn : Type :=
| APIError
| AuthenticationError
| ValueError
| TypeError
| KeyError
| AttributeError
| IndexError
| RequestException
| JSONDecodeError
| OSError (e : os_error).

(** [v[k]] on a value. *)
Definition getitem (v : value) (k : string) : exn + value :=
  match v with
  | VDict d => match dict_get k d with Some x => inr x | None => inl KeyError end
  | _ => inl TypeError
  end.

(** ** Project objects *)

(** An instance is its attribute dictionary. *)
Definition obj := dict.

Definition getattr (o : obj) (k : string) : exn + value :=
  match dict_get k o with Some v => inr v | None => inl AttributeError end.

(** The data descriptors every Project instance inherits from [object]:
    assigning to one of these names does not store an attribute. *)
Definition special_attr (k : string) : bool :=
  String.eqb k "__class__" || String.eqb k "__dict__" || String.eqb k "__weakref__".

(** [setattr(self, k, v)] on a Project instance.  [__class__] only accepts a
    class (no JSON value is one: TypeError); [__dict__] accepts a dict, which
    becomes the instance dictionary (anything else: TypeError); [__weakref__]
    is read-only (AttributeError); any other name is stored in the instance
    dictionary, shadowing a method of the same name. *)
Definition setattr (o : obj) (k : string) (v : value) : exn + obj :=
  if String.eqb k "__class__" then inl TypeError
  else if String.eqb k "__dict__" then
    match v with VDict d => inr d | _ => inl TypeError end
  else if String.eqb k "__weakref__" then inl AttributeError
  else inr (dict_set k v o).

(** [for key, value in items: setattr(self, key, value)], on an object that
    nothing else sees in the meantime; the first failure propagates. *)
Fixpoint setattr_all (o : obj) (items : dict) : exn + obj :=
  match items with
  | [] => inr o
  | (k, v) :: items' =>
      match setattr o k v with
      | inl e => inl e
      | inr o' => setattr_all o' items'
      end
  end.

(** [self.m(...)] for a method [m] of Project: methods are non-data
    descriptors, so an instance attribute named [m] shadows the method, and
    calling it raises TypeError, since no JSON value is callable. *)
Definition method_lookup (o : obj) (m : string) : exn + unit :=
  if dict_mem m o then inl TypeError else inr tt.

Definition required_fields : list string :=
  ["id"; "group_id"; "episode_id"; "title"; "cover"; "content"].

Definition list_fields : list string :=
  ["books"; "books_file_ids"; "images"; "images_file_ids"; "videos"; "videos_file_ids"].

Definition known_fields : list string := required_fields ++ list_fields.

(** The parameters of [Project.__init__], [self] included. *)
Definition init_params : list string := "self" :: known_fields.

(** [Project.__init__] called as [Project( **data )]: keyword arguments are
    bound to the named parameters (a missing one without default, or a second
    value for [self], is a TypeError; the list parameters default to None), the
    remaining ones form [kwargs] in [data]'s order.  Then the body runs:
    six plain assignments, six [x or []] assignments, and one [setattr] per
    entry of [kwargs]. *)
Definition kwarg_or_none (data : dict) (f : string) : value :=
  match dict_get f data with Some v => v | None => VNone end.

Definition init_kwargs (data : dict) : dict :=
  filter (fun kv => negb (existsb (String.eqb (fst kv)) init_params)) data.

(** The twelve assignments of the body: [self.id = id], ...,
    [self.books = books or []], ...; these names are plain attributes. *)
Definition init_fixed_attrs (data : dict) : obj :=
  let o0 : obj := [] in
  let o1 := fold_left (fun o f => dict_set f (kwarg_or_none data f) o) required_fields o0 in
  fold_left (fun o f => dict_set f (py_or (kwarg_or_none data f) (VList [])) o) list_fields o1.

Definition project_init (data : dict) : exn + obj :=
  if dict_mem "self" data then inl TypeError
  else if negb (forallb (fun f => dict_mem f data) required_fields) then inl TypeError
  else setattr_all (init_fixed_attrs data) (init_kwargs data).

(** [Project.from_dict(data)] is [cls( **data )]. *)
Definition project_from_dict (data : dict) : exn + obj := project_init data.

(** [Project.to_dict()]: a dict literal of the twelve known attributes, each
    read with [self.<field>] in source order; the first missing one raises. *)
Fixpoint to_dict_fields (o : obj) (fs : list string) : exn + dict :=
  match fs with
  | [] => inr []
  | f :: fs' =>
      match getattr o f with
      | inl e => inl e
      | inr v => match to_dict_fields o fs' with inl e => inl e | inr d => inr ((f, v) :: d) end
      end
  end.

(** [p.to_dict()]: the method is looked up on the instance, then runs. *)
Definition project_to_dict (o : obj) : exn + dict :=
  match method_lookup o "to_dict" with
  | inl e => inl e
  | inr _ => to_dict_fields o known_fields
  end.

(** [Project.from_dict(d).to_dict()]. *)
Definition from_dict_to_dict (d : dict) : exn + dict :=
  match project_from_dict d with inr o => project_to_dict o | inl e => inl e end.

(** [str(v)], as used by f-strings, and [repr(v)] for the values inside
    containers. *)
Fixpoint digits_of (fuel : nat) (n : Z) (acc : string) : string :=
  match fuel with
  | O => acc
  | S fuel' =>
      let acc' := String (ascii_of_nat (48 + Z.to_nat (n mod 10))) acc in
      if n <? 10 then acc' else digits_of fuel' (n / 10) acc'
  end.

Definition string_of_Z (z : Z) : string :=
  if z <? 0 then String "-" (digits_of (Z.to_nat (- z) + 1) (- z) "")
  else digits_of (Z.to_nat z + 1) z "".

Fixpoint concat_sep (sep : string) (l : list string) : string :=
  match l with
  | [] => ""
  | [x] => x
  | x :: l' => x ++ sep ++ concat_sep sep l'
  end.

(** Whether [c] occurs in [s]. *)
Fixpoint has_char (c : ascii) (s : string) : bool :=
  match s with EmptyString => false | String a s' => Ascii.eqb a c || has_char c s' end.

Definition BSL : ascii := ascii_of_nat 92.
Definition SQ : ascii := ascii_of_nat 39.
Definition DQ : ascii := ascii_of_nat 34.

Definition hex_digit (n : nat) : ascii :=
  ascii_of_nat (if (n <? 10)%nat then 48 + n else 87 + n).

(** One character of [repr(s)] between the quotes [q]: the quote and the
    backslash are escaped, so are tab, newline, carriage return
    and the other ASCII control characters; non-ASCII characters are copied,
    as Python does for the printable ones. *)
Definition repr_char (q a : ascii) : string :=
  let n := nat_of_ascii a in
  if Ascii.eqb a q || Ascii.eqb a BSL then String BSL (String a EmptyString)
  else if (n =? 9)%nat then String BSL "t"
  else if (n =? 10)%nat then String BSL "n"
  else if (n =? 13)%nat then String BSL "r"
  else if (n <? 32)%nat || (n =? 127)%nat then
    String BSL (String "x" (String (hex_digit (n / 16)) (String (hex_digit (n mod 16)) EmptyString)))
  else String a EmptyString.

Fixpoint repr_chars (q : ascii) (s : string) : string :=
  match s with EmptyString => EmptyString | String a s' => repr_char q a ++ repr_chars q s' end.

(** [repr(s)]: double quotes when [s] has a single quote and no double
    one, single quotes otherwise. *)
Definition repr_str (s : string) : string :=
  let q := if has_char SQ s && negb (has_char DQ s) then DQ else SQ in
  String q (repr_chars q s ++ String q EmptyString).

Fixpoint py_repr (v : value) : string :=
  match v with
  | VNone => "None"
  | VBool b => if b then "True" else "False"
  | VInt z => string_of_Z z
  | VStr s => repr_str s
  | VList l => "[" ++ concat_sep ", " (map py_repr l) ++ "]"
  | VDict d => "{" ++ concat_sep ", " (map (fun kv => repr_str (fst kv) ++ ": " ++ py_repr (snd kv)) d) ++ "}"
  end.

Definition py_str (v : value) : string :=
  match v with VStr s => s | _ => py_repr v end.

(** [a + b]. *)
Definition py_add (a b : value) : exn + value :=
  match a, b with
  | VStr x, VStr y => inr (VStr (x ++ y))
  | VInt x, VInt y => inr (VInt (x + y))
  | VList x, VList y => inr (VList (x ++ y))
  | _, _ => inl TypeError
  end.

Fixpoint is_prefix (p s : string) : bool :=
  match p, s with
  | EmptyString, _ => true
  | String a p', String b s' => Ascii.eqb a b && is_prefix p' s'
  | _, _ => false
  end.

Fixpoint is_substring (p s : string) : bool :=
  is_prefix p s || match s with EmptyString => false | String _ s' => is_substring p s' end.

(** [x in container] for a string [x]. *)
Definition py_contains (container : value) (x : string) : exn + bool :=
  match container with
  | VDict d => inr (dict_mem x d)
  | VList l => inr (existsb (py_eq (VStr x)) l)
  | VStr s => inr (is_substring x s)
  | _ => inl TypeError
  end.

(** [str.split(c)] for a one-character separator. *)
Fixpoint split_on (c : ascii) (s : string) : list string :=
  match s with
  | EmptyString => [""]
  | String x s' =>
      if Ascii.eqb x c then "" :: split_on c s'
      else match split_on c s' with
           | h :: t => String x h :: t
           | [] => [String x EmptyString]
           end
  end.

Definition lower_ascii (a : ascii) : ascii :=
  let n := nat_of_ascii a in
  if (65 <=? n)%nat && (n <=? 90)%nat then ascii_of_nat (n + 32) else a.

Fixpoint lower (s : string) : string :=
  match s with EmptyString => EmptyString | String a s' => String (lower_ascii a) (lower s') end.

(** Lookup in a [CaseInsensitiveDict] of response headers. *)
Fixpoint header_get (k : string) (hs : list (string * string)) : option string :=
  match hs with
  | [] => None
  | (k', v) :: hs' => if String.eqb (lower k) (lower k') then Some v else header_get k hs'
  end.

(** ** HTTP, the file system and the heap *)

Record request : Type := {
  rq_method : string;
  rq_url : string;
  rq_headers : list (string * string);
  rq_params : dict;
  rq_data : dict;
  rq_files : list (string * (string * string * string))
}.

(** What the network gives back for a request: a transport failure
    (a [requests.exceptions.RequestException]) or a response with its status,
    headers, and the result of parsing its body as JSON ([None]: not JSON). *)
Inductive response : Type :=
| NetFailure
| Response (status : Z) (headers : list (string * string)) (json : option value).

Definition server := request -> response.

(** A node of the file system: a directory or a regular file with its
    bytes. *)
Inductive node : Type := NDir | NFile (data : string).

(** The file system: the current directory (an absolute path, as the list
    of its components) and the nodes other than the root, by absolute
    path. *)
Record filesys : Type := {
  fs_cwd : list string;
  fs_nodes : list (list string * node)
}.

Record world : Type := {
  w_heap : list obj;
  w_log : list request;
  w_fs : filesys
}.

(** ** The interpreter monad: server as a reader, world as state, exceptions *)

Definition M (A : Type) : Type := server -> world -> (exn + A) * world.

Definition ret {A} (a : A) : M A := fun _ w => (inr a, w).

Definition bind {A B} (m : M A) (k : A -> M B) : M B :=
  fun srv w => match m srv w with
               | (inl e, w') => (inl e, w')
               | (inr a, w') => k a srv w'
               end.

Definition raise {A} (e : exn) : M A := fun _ w => (inl e, w).

Definition lift {A} (r : exn + A) : M A := fun _ w => (r, w).

(** [try: m except ...: h(e)]; [h] re-raises what it does not handle. *)
Definition try_except {A} (m : M A) (h : exn -> M A) : M A :=
  fun srv w => match m srv w with
               | (inl e, w') => h e srv w'
               | r => r
               end.

Notation "x <- m ;; k" := (bind m (fun x => k))
  (at level 61, m at next level, right associativity).

Definition get_world : M world := fun _ w => (inr w, w).
Definition put_world (w : world) : M unit := fun _ _ => (inr tt, w).

(** Send a request: it is logged, then the server answers; a transport
    failure raises [RequestException]. *)
Definition log_request (w : world) (rq : request) : world :=
  {| w_heap := w_heap w; w_log := w_log w ++ [rq]; w_fs := w_fs w |}.

Definition http (rq : request) : M response :=
  fun srv w =>
    let w' := log_request w rq in
    match srv rq with
    | NetFailure => (inl RequestException, w')
    | r => (inr r, w')
    end.

(** Heap of Project instances: a reference is an index. *)
Definition loc := nat.

Definition alloc (o : obj) : M loc :=
  fun _ w => (inr (length (w_heap w)),
              {| w_heap := w_heap w ++ [o]; w_log := w_log w; w_fs := w_fs w |}).

Definition deref (l : loc) : M obj :=
  fun _ w => match nth_error (w_heap w) l with
             | Some o => (inr o, w)
             | None => (inl AttributeError, w)
             end.

Fixpoint list_upd {A} (l : list A) (n : nat) (x : A) : list A :=
  match l, n with
  | [], _ => []
  | _ :: l', O => x :: l'
  | y :: l', S n' => y :: list_upd l' n' x
  end.

Definition store (l : loc) (o : obj) : M unit :=
  fun _ w => (inr tt, {| w_heap := list_upd (w_heap w) l o; w_log := w_log w; w_fs := w_fs w |}).

(** ** MilCubesSession *)

Definition BASE_URL := "https://milcubes.zju.edu.cn".
Definition LOGIN_URL := BASE_URL ++ "/login".
Definition AUTH_URL := BASE_URL ++ "/login/admin".
Definition INDEX_URL := BASE_URL ++ "/".
Definition API_URL := BASE_URL ++ "/api/admin".

Definition DEFAULT_HEADERS : list (string * string) :=
  [("User-Agent", "Mozilla/5.0 (Windows NT 10.0; Win64; x64) AppleWebKit/537.36 (KHTML, like Gecko) Chrome/58.0.3029.110 Safari/537.3")].

Record session : Type := {
  auth_token : option string;
  headers : list (string * string)
}.

(** [MilCubesSession.__init__(auth_token, session)]: the Authorization header
    is added only for a truthy (non-empty) token. *)
Definition session_init (tok : option string) : session :=
  match tok with
  | Some t =>
      if negb (String.eqb t "") then
        {| auth_token := tok; headers := dict_set "Authorization" ("Bearer " ++ t) DEFAULT_HEADERS |}
      else {| auth_token := tok; headers := DEFAULT_HEADERS |}
  | None => {| auth_token := tok; headers := DEFAULT_HEADERS |}
  end.

(** [response.raise_for_status()]: raises [HTTPError], a
    [RequestException], for a status in [400, 600). *)
Definition raise_for_status (status : Z) : M unit :=
  if (400 <=? status) && (status <? 600) then raise RequestException else ret tt.

(** [response.json()]. *)
Definition json_of (j : option value) : M value :=
  match j with Some v => ret v | None => raise JSONDecodeError end.

Definition mk_request (meth url : string) (hs : list (string * string))
    (params data : dict) (files : list (string * (string * string * string))) : request :=
  {| rq_method := meth; rq_url := url; rq_headers := hs;
     rq_params := params; rq_data := data; rq_files := files |}.

(** [MilCubesSession._make_request(method, endpoint, params=..., data=...)]. *)
Definition make_request (s : session) (meth endpoint : string) (params data : dict) : M value :=
  let url := API_URL ++ "/" ++ endpoint in
  try_except
    (r <- http (mk_request meth url (headers s) params data []) ;;
     match r with
     | NetFailure => raise RequestException
     | Response st _ j =>
         _ <- raise_for_status st ;;
         d <- json_of j ;;
         c <- lift (py_contains d "data") ;;
         if negb c then raise APIError
         else lift (getitem d "data")
     end)
    (fun e => match e with
              | RequestException => raise APIError
              | JSONDecodeError => raise APIError
              | e => raise e
              end).

(** [MilCubesSession.upload_file(content, file_name, mime_type)]: returns
    the pair (URL, file id). *)
Definition upload_file (s : session) (content file_name mime_type : string) : M (value * value) :=
  data <- make_request s "get" "file" [("path", VStr file_name); ("method", VStr "post")] [] ;;
  signature <- lift (getitem data "signature") ;;
  key <- lift (getitem signature "dir") ;;
  policy <- lift (getitem signature "policy") ;;
  accessid <- lift (getitem signature "accessid") ;;
  sig <- lift (getitem signature "signature") ;;
  let body := [("key", key); ("success_action_status", VStr "200"); ("policy", policy);
               ("OSSAccessKeyId", accessid); ("Signature", sig)] in
  _ <- try_except
         (host <- lift (getitem signature "host") ;;
          _ <- http (mk_request "post" (py_str host) (headers s) [] body
                       [("file", (file_name, content, mime_type))]) ;;
          ret tt)
         (fun e => match e with RequestException => raise APIError | e => raise e end) ;;
  dir <- lift (getitem signature "dir") ;;
  file_data <- make_request s "post" "file" []
                 [("mime", VStr mime_type); ("name", VStr file_name); ("path", dir)] ;;
  host <- lift (getitem signature "host") ;;
  dir' <- lift (getitem signature "dir") ;;
  url <- lift (py_add host dir') ;;
  fid <- lift (getitem file_data "id") ;;
  ret (url, fid).

(** ** ProjectCollection *)

Record collection : Type := {
  projects : list loc;
  csession : option session
}.

(** [for item in data]: the items iterated over. *)
Definition py_iter (v : value) : exn + list value :=
  match v with
  | VList l => inr l
  | VDict d => inr (map (fun kv => VStr (fst kv)) d)
  | VStr s => inr (map (fun a => VStr (String a EmptyString)) (list_ascii_of_string s))
  | _ => inl TypeError
  end.

(** [cls( **item )] on a value: it must be a mapping. *)
Definition from_value (v : value) : M loc :=
  match v with
  | VDict d => o <- lift (project_from_dict d) ;; alloc o
  | _ => raise TypeError
  end.

Fixpoint map_m {A B} (f : A -> M B) (l : list A) : M (list B) :=
  match l with
  | [] => ret []
  | x :: l' => y <- f x ;; ys <- map_m f l' ;; ret (y :: ys)
  end.

(** [MilCubesSession.get_projects(offset, limit)]. *)
Definition get_projects (s : session) (offset limit : Z) : M collection :=
  data <- make_request s "get" "project" [("offset", VInt offset); ("limit", VInt limit)] [] ;;
  items <- lift (py_iter data) ;;
  ls <- map_m from_value items ;;
  ret {| projects := ls; csession := Some s |}.

(** [MilCubesSession.get_project(project_id)]. *)
Definition get_project (s : session) (project_id : value) : M loc :=
  data <- make_request s "get" ("project/" ++ py_str project_id) [] [] ;;
  from_value data.

(** [p.upload(session)]: the arguments of [_make_request] are evaluated in
    order, [self.id] (in the f-string) before [self.to_dict()]. *)
Definition project_upload (s : session) (p : loc) : M unit :=
  o <- deref p ;;
  _ <- lift (method_lookup o "upload") ;;
  try_except
    (id <- lift (getattr o "id") ;;
     d <- lift (project_to_dict o) ;;
     _ <- make_request s "put" ("project/" ++ py_str id) [] d ;;
     ret tt)
    (fun e => match e with APIError => raise APIError | e => raise e end).

(** [data.items()]. *)
Definition py_items (v : value) : exn + dict :=
  match v with VDict d => inr d | _ => inl AttributeError end.

(** The loop of [update]: [setattr(self, key, value)] on the object itself,
    one entry after the other, so that a failing entry leaves the earlier
    ones set. *)
Fixpoint update_items (p : loc) (items : dict) : M unit :=
  match items with
  | [] => ret tt
  | (k, v) :: items' =>
      o <- deref p ;;
      o' <- lift (setattr o k v) ;;
      _ <- store p o' ;;
      update_items p items'
  end.

(** [p.update(session)]. *)
Definition project_update (s : session) (p : loc) : M unit :=
  o <- deref p ;;
  _ <- lift (method_lookup o "update") ;;
  try_except
    (id <- lift (getattr o "id") ;;
     data <- make_request s "get" ("project/" ++ py_str id) [] [] ;;
     items <- lift (py_items data) ;;
     update_items p items)
    (fun e => match e with APIError => raise APIError | e => raise e end).

(** The loop shared by [find_by_id] ([attr = "id"]) and [find_by_title]
    ([attr = "title"]). *)
Fixpoint find_by_loop (attr : string) (sess : option session) (x : value) (ps : list loc)
    : M loc :=
  match ps with
  | [] => raise ValueError
  | p :: ps' =>
      o <- deref p ;;
      a <- lift (getattr o attr) ;;
      if py_eq a x then
        _ <- match sess with Some s => project_update s p | None => ret tt end ;;
        ret p
      else find_by_loop attr sess x ps'
  end.

Definition find_by_id (c : collection) (project_id : value) : M loc :=
  find_by_loop "id" (csession c) project_id (projects c).

Definition find_by_title (c : collection) (title : value) : M loc :=
  find_by_loop "title" (csession c) title (projects c).

(** ** Paths and the file system *)

Fixpoint all_slashes (s : string) : bool :=
  match s with EmptyString => true | String a s' => Ascii.eqb a "/" && all_slashes s' end.

Fixpoint rstrip_slash (s : string) : string :=
  match s with
  | EmptyString => EmptyString
  | String a s' =>
      let r := rstrip_slash s' in
      if Ascii.eqb a "/" && String.eqb r "" then "" else String a r
  end.

(** [head.rstrip('/')] unless [head] is made only of slashes, as
    [posixpath.split] does. *)
Definition dnorm (p : string) : string := if all_slashes p then p else rstrip_slash p.

Definition starts_with_slash (s : string) : bool :=
  match s with String a _ => Ascii.eqb a "/" | EmptyString => false end.

Fixpoint ends_with_slash (s : string) : bool :=
  match s with
  | EmptyString => false
  | String a EmptyString => Ascii.eqb a "/"
  | String _ s' => ends_with_slash s'
  end.

(** [os.path.join(a, b)]. *)
Definition path_join (a b : string) : string :=
  if starts_with_slash b then b
  else if String.eqb a "" || ends_with_slash a then a ++ b
  else a ++ "/" ++ b.

(** The part of a path up to and including its last slash. *)
Fixpoint dir_prefix (s : string) : string :=
  match s with
  | EmptyString => EmptyString
  | String a s' =>
      let r := dir_prefix s' in
      if negb (String.eqb r "") then String a r
      else if Ascii.eqb a "/" then "/" else ""
  end.

(** [os.path.dirname(p)]. *)
Definition dirname (p : string) : string := dnorm (dir_prefix p).

Definition mem_str (x : string) (l : list string) : bool := existsb (String.eqb x) l.

Fixpoint has_slash (s : string) : bool :=
  match s with EmptyString => false | String a s' => Ascii.eqb a "/" || has_slash s' end.

(** [os.path.basename(p)]: what follows the last slash. *)
Fixpoint basename (s : string) : string :=
  match s with
  | EmptyString => EmptyString
  | String a s' => if has_slash s' then basename s' else if Ascii.eqb a "/" then s' else s
  end.

(** [posixpath.split(p)]: [(dirname(p), basename(p))]. *)
Definition path_split (p : string) : string * string := (dirname p, basename p).

(** *** Text and bytes

    A Python [str] is represented by the bytes of its UTF-8 encoding, a lone
    surrogate (which [json.loads] can produce) by the three bytes UTF-8
    would give its code point: [ED], a byte in [A0..BF], a continuation
    byte.  Bytes objects and file contents are byte strings. *)

Definition is_cont (a : ascii) : bool :=
  (128 <=? nat_of_ascii a)%nat && (nat_of_ascii a <=? 191)%nat.

(** The three bytes starting a lone surrogate. *)
Definition lone_surrogate (a b c : ascii) : bool :=
  (nat_of_ascii a =? 237)%nat && (160 <=? nat_of_ascii b)%nat && (nat_of_ascii b <=? 191)%nat &&
  is_cont c.

(** [s.encode('utf-8')]; [None] is the UnicodeEncodeError of a lone
    surrogate. *)
Fixpoint has_surrogate (s : string) : bool :=
  match s with
  | EmptyString => false
  | String a s1 =>
      match s1 with String b (String c _) => lone_surrogate a b c | _ => false end
      || has_surrogate s1
  end.

Definition utf8_encode (s : string) : option string :=
  if has_surrogate s then None else Some s.

(** [os.fsencode(s)]: UTF-8 with the [surrogateescape] handler; the lone
    surrogates U+DC80..U+DCFF ([ED B2 xx] and [ED B3 xx]) give back the
    bytes 80..FF, any other lone surrogate is a UnicodeEncodeError
    ([None]). *)
Fixpoint fsencode (s : string) : option string :=
  match s with
  | EmptyString => Some EmptyString
  | String a s1 =>
      match s1 with
      | String b (String c s3) =>
          if lone_surrogate a b c then
            if (nat_of_ascii b =? 178)%nat then option_map (String c) (fsencode s3)
            else if (nat_of_ascii b =? 179)%nat then
              option_map (String (ascii_of_nat (nat_of_ascii c + 64))) (fsencode s3)
            else None
          else option_map (String a) (fsencode s1)
      | _ => option_map (String a) (fsencode s1)
      end
  end.

Definition in_range (lo hi : nat) (a : ascii) : bool :=
  (lo <=? nat_of_ascii a)%nat && (nat_of_ascii a <=? hi)%nat.

(** Whether a byte string is valid UTF-8, as the strict decoder checks it:
    no overlong form, no surrogate, nothing above U+10FFFF. *)
Fixpoint utf8_valid (s : string) : bool :=
  match s with
  | EmptyString => true
  | String a s1 =>
      let n := nat_of_ascii a in
      if (n <? 128)%nat then utf8_valid s1
      else if in_range 194 223 a then
        match s1 with String b s2 => is_cont b && utf8_valid s2 | _ => false end
      else if in_range 224 239 a then
        match s1 with
        | String b (String c s3) =>
            (if (n =? 224)%nat then in_range 160 191 b
             else if (n =? 237)%nat then in_range 128 159 b
             else is_cont b) && is_cont c && utf8_valid s3
        | _ => false
        end
      else if in_range 240 244 a then
        match s1 with
        | String b (String c (String d s4)) =>
            (if (n =? 240)%nat then in_range 144 191 b
             else if (n =? 244)%nat then in_range 128 143 b
             else is_cont b) && is_cont c && is_cont d && utf8_valid s4
        | _ => false
        end
      else false
  end.

Definition CR : ascii := ascii_of_nat 13.
Definition LF : ascii := ascii_of_nat 10.

(** Universal newlines on reading: [\r\n] and a lone [\r] become [\n]. *)
Fixpoint translate_newlines (s : string) : string :=
  match s with
  | EmptyString => EmptyString
  | String a s1 =>
      if Ascii.eqb a CR then
        match s1 with
        | String b s2 => if Ascii.eqb b LF then String LF (translate_newlines s2)
                         else String LF (translate_newlines s1)
        | EmptyString => String LF EmptyString
        end
      else String a (translate_newlines s1)
  end.

(** *** The file system

    A Linux file system made of directories and regular files (no symbolic
    links), where the process may search, create and write everywhere and
    space never runs out; file names have at most [NAME_MAX] bytes and
    paths fewer than [PATH_MAX].  A node is named by its absolute path, the
    list of its components; the root is always a directory. *)

Definition NAME_MAX : nat := 255.
Definition PATH_MAX : nat := 4096.

Fixpoint path_eqb (a b : list string) : bool :=
  match a, b with
  | [], [] => true
  | x :: a', y :: b' => String.eqb x y && path_eqb a' b'
  | _, _ => false
  end.

Fixpoint node_get (p : list string) (ns : list (list string * node)) : option node :=
  match ns with
  | [] => None
  | (q, n) :: ns' => if path_eqb p q then Some n else node_get p ns'
  end.

Fixpoint node_set (p : list string) (n : node) (ns : list (list string * node))
    : list (list string * node) :=
  match ns with
  | [] => [(p, n)]
  | (q, m) :: ns' => if path_eqb p q then (p, n) :: ns' else (q, m) :: node_set p n ns'
  end.

Definition fs_lookup (fs : filesys) (p : list string) : option node :=
  match p with [] => Some NDir | _ => node_get p (fs_nodes fs) end.

Definition fs_set (fs : filesys) (p : list string) (n : node) : filesys :=
  {| fs_cwd := fs_cwd fs; fs_nodes := node_set p n (fs_nodes fs) |}.

(** The components of a path: the non-empty pieces between its slashes. *)
Definition components (b : string) : list string :=
  filter (fun c => negb (String.eqb c "")) (split_on "/" b).

(** Looking up one component of the directory part of a path, in the
    directory [cur]. *)
Definition walk_step (fs : filesys) (cur : list string) (c : string) : os_error + list string :=
  if String.eqb c "." then inr cur
  else if String.eqb c ".." then inr (removelast cur)
  else if (NAME_MAX <? String.length c)%nat then inl NameTooLong
  else match fs_lookup fs (app cur [c]) with
       | Some NDir => inr (app cur [c])
       | Some (NFile _) => inl NotADirectory
       | None => inl FileNotFound
       end.

Fixpoint walk (fs : filesys) (cur : list string) (cs : list string) : os_error + list string :=
  match cs with
  | [] => inr cur
  | c :: cs' =>
      match walk_step fs cur c with
      | inl e => inl e
      | inr cur' => walk fs cur' cs'
      end
  end.

(** Where a lookup starts: the root for an absolute path, otherwise the
    current directory, which must exist. *)
Definition start_dir (fs : filesys) (b : string) : os_error + list string :=
  if starts_with_slash b then inr []
  else match fs_lookup fs (fs_cwd fs) with
       | Some NDir => inr (fs_cwd fs)
       | _ => inl FileNotFound
       end.

(** The last component of a path: none (the root), [.], [..] or a name. *)
Inductive last_comp : Type := LRoot | LDot | LDotDot | LName (c : string).

Definition classify (c : string) : last_comp :=
  if String.eqb c "." then LDot else if String.eqb c ".." then LDotDot else LName c.

(** The kernel's lookup of the directory part of a path (the bytes [b]): the
    directory reached, the last component, and whether a slash trails. *)
Definition parent_lookup (fs : filesys) (b : string)
    : os_error + (list string * last_comp * bool) :=
  if String.eqb b "" then inl FileNotFound
  else if (PATH_MAX <=? String.length b)%nat then inl NameTooLong
  else
    match start_dir fs b with
    | inl e => inl e
    | inr start =>
        match rev (components b) with
        | [] => inr (start, LRoot, false)
        | last :: rdir =>
            match walk fs start (rev rdir) with
            | inl e => inl e
            | inr cur => inr (cur, classify last, ends_with_slash b)
            end
        end
    end.

(** The full lookup ([stat], [open] for reading): the node named. *)
Definition lookup_path (fs : filesys) (b : string) : os_error + (list string * node) :=
  match parent_lookup fs b with
  | inl e => inl e
  | inr (cur, LRoot, _) => inr (cur, NDir)
  | inr (cur, LDot, _) => inr (cur, NDir)
  | inr (cur, LDotDot, _) => inr (removelast cur, NDir)
  | inr (cur, LName c, trailing) =>
      if (NAME_MAX <? String.length c)%nat then inl NameTooLong
      else match fs_lookup fs (app cur [c]) with
           | None => inl FileNotFound
           | Some NDir => inr (app cur [c], NDir)
           | Some (NFile d) => if trailing then inl NotADirectory else inr (app cur [c], NFile d)
           end
  end.

(** The [mkdir] system call. *)
Definition sys_mkdir (fs : filesys) (b : string) : os_error + filesys :=
  match parent_lookup fs b with
  | inl e => inl e
  | inr (cur, LName c, _) =>
      if (NAME_MAX <? String.length c)%nat then inl NameTooLong
      else match fs_lookup fs (app cur [c]) with
           | Some _ => inl FileExists
           | None => inr (fs_set fs (app cur [c]) NDir)
           end
  | inr _ => inl FileExists
  end.

(** The [open] system call with [O_WRONLY|O_CREAT|O_TRUNC]: the regular
    file opened, created empty or truncated. *)
Definition sys_open_write (fs : filesys) (b : string) : os_error + (list string * filesys) :=
  match parent_lookup fs b with
  | inl e => inl e
  | inr (cur, LName c, trailing) =>
      if trailing then inl IsADirectory
      else if (NAME_MAX <? String.length c)%nat then inl NameTooLong
      else match fs_lookup fs (app cur [c]) with
           | Some NDir => inl IsADirectory
           | _ => inr (app cur [c], fs_set fs (app cur [c]) (NFile ""))
           end
  | inr _ => inl IsADirectory
  end.

Definition NUL : ascii := ascii_of_nat 0.

(** A path argument of an [os] function or of [open]: [os.fsencode], then
    the check for an embedded NUL.  Both failures are ValueErrors (a
    UnicodeEncodeError is a ValueError). *)
Definition path_bytes (p : string) : exn + string :=
  match fsencode p with
  | None => inl ValueError
  | Some b => if has_char NUL b then inl ValueError else inr b
  end.

Definition get_fs : M filesys := fun _ w => (inr (w_fs w), w).

Definition set_fs (fs : filesys) : M unit :=
  fun _ w => (inr tt, {| w_heap := w_heap w; w_log := w_log w; w_fs := fs |}).

(** A failed system call raises the [OSError] subclass of its errno. *)
Definition os_lift {A} (r : os_error + A) : M A :=
  match r with inl e => raise (OSError e) | inr a => ret a end.

(** [os.mkdir(p)]. *)
Definition mkdir (p : string) : M unit :=
  b <- lift (path_bytes p) ;;
  fs <- get_fs ;;
  fs' <- os_lift (sys_mkdir fs b) ;;
  set_fs fs'.

(** [os.stat(p)]: the node [p] names. *)
Definition stat (p : string) : M node :=
  b <- lift (path_bytes p) ;;
  fs <- get_fs ;;
  r <- os_lift (lookup_path fs b) ;;
  ret (snd r).

(** [os.path.exists(p)] and [os.path.isdir(p)]: an OSError or a ValueError
    of [os.stat] gives False. *)
Definition path_exists (p : string) : M bool :=
  try_except (_ <- stat p ;; ret true)
    (fun e => match e with OSError _ => ret false | ValueError => ret false | e => raise e end).

Definition path_isdir (p : string) : M bool :=
  try_except (n <- stat p ;; ret (match n with NDir => true | NFile _ => false end))
    (fun e => match e with OSError _ => ret false | ValueError => ret false | e => raise e end).

(** [try: mkdir(name) except OSError: if not path.isdir(name): raise], the
    end of [os.makedirs] with [exist_ok=True]. *)
Definition mkdir_exist_ok (name : string) : M unit :=
  try_except (mkdir name)
    (fun e => match e with
              | OSError _ => d <- path_isdir name ;; if d then ret tt else raise e
              | e => raise e
              end).

(** [os.makedirs(name, exist_ok=True)] (Lib/os.py):
<<
    head, tail = path.split(name)
    if not tail:
        head, tail = path.split(head)
    if head and tail and not path.exists(head):
        try:
            makedirs(head, exist_ok=exist_ok)
        except FileExistsError:
            pass
        if tail == curdir:
            return
    try:
        mkdir(name, mode)
    except OSError:
        if not exist_ok or not path.isdir(name):
            raise
>>
    The recursive call is on a strictly shorter path; the fuel bounds the
    depth. *)
Fixpoint makedirs_go (fuel : nat) (name : string) : M unit :=
  match fuel with
  | O => raise (OSError OSGeneric)
  | S fuel' =>
      let ht := path_split name in
      let ht := if String.eqb (snd ht) "" then path_split (fst ht) else ht in
      let head := fst ht in
      let tail := snd ht in
      if negb (String.eqb head "") && negb (String.eqb tail "") then
        ex <- path_exists head ;;
        if ex then mkdir_exist_ok name
        else
          _ <- try_except (makedirs_go fuel' head)
                 (fun e => match e with OSError FileExists => ret tt | e => raise e end) ;;
          if String.eqb tail "." then ret tt else mkdir_exist_ok name
      else mkdir_exist_ok name
  end.

Definition makedirs (name : string) : M unit := makedirs_go (S (String.length name)) name.

(** [open(p, 'w', encoding='utf-8')]: the file opened. *)
Definition open_write (p : string) : M (list string) :=
  b <- lift (path_bytes p) ;;
  fs <- get_fs ;;
  r <- os_lift (sys_open_write fs b) ;;
  _ <- set_fs (snd r) ;;
  ret (fst r).

(** [f.write(s)] on that file, then closing it: the text encoded in UTF-8
    (a lone surrogate is a UnicodeEncodeError, a ValueError); on POSIX
    newlines are written as they are. *)
Definition write_text (f : list string) (s : string) : M unit :=
  b <- lift (match utf8_encode s with Some b => inr b | None => inl ValueError end) ;;
  fs <- get_fs ;;
  set_fs (fs_set fs f (NFile b)).

(** [open(p, 'rb').read()]: the bytes of a regular file; opening a
    directory is an IsADirectoryError. *)
Definition read_bytes (p : string) : M string :=
  b <- lift (path_bytes p) ;;
  fs <- get_fs ;;
  r <- os_lift (lookup_path fs b) ;;
  match snd r with
  | NDir => raise (OSError IsADirectory)
  | NFile d => ret d
  end.

(** [open(p, 'r', encoding='utf-8').read()]: the bytes decoded as UTF-8 (an
    invalid sequence is a UnicodeDecodeError, a ValueError), with universal
    newlines. *)
Definition read_text (p : string) : M string :=
  d <- read_bytes p ;;
  if utf8_valid d then ret (translate_newlines d) else raise ValueError.

(** [p.download_content(output_dir)]. *)
Definition download_content (p : loc) (output_dir : string) : M string :=
  o <- deref p ;;
  _ <- lift (method_lookup o "download_content") ;;
  _ <- makedirs output_dir ;;
  id <- lift (getattr o "id") ;;
  title <- lift (getattr o "title") ;;
  let file_path := path_join output_dir (py_str id ++ "-" ++ py_str title ++ ".html") in
  try_except
    (f <- open_write file_path ;;
     c <- lift (getattr o "content") ;;
     match c with
     | VStr s => _ <- write_text f s ;; ret file_path
     | _ => raise TypeError
     end)
    (fun e => match e with OSError _ => raise (OSError OSGeneric) | e => raise e end).

(** [MilCubesSession.from_cookies(cookies)]: every exception inside the
    [try] becomes an [AuthenticationError]. *)
Definition from_cookies : M session :=
  try_except
    (r <- http (mk_request "get" AUTH_URL DEFAULT_HEADERS [] [] []) ;;
     match r with
     | NetFailure => raise RequestException
     | Response _ hs _ =>
         match header_get "Location" hs with
         | None => raise AuthenticationError
         | Some location =>
             match nth_error (split_on "=" location) 1 with
             | None => raise IndexError
             | Some tok => ret (session_init (Some tok))
             end
         end
     end)
    (fun _ => raise AuthenticationError).

(** ** The rest of the API *)

(** [for x in l: f(x)], the results discarded. *)
Fixpoint iter_m {A} (f : A -> M unit) (l : list A) : M unit :=
  match l with
  | [] => ret tt
  | x :: l' => _ <- f x ;; iter_m f l'
  end.

(** [ProjectCollection.download_all_content(output_dir)]. *)
Definition download_all_content (c : collection) (output_dir : string) : M unit :=
  _ <- makedirs output_dir ;;
  iter_m (fun p => _ <- download_content p output_dir ;; ret tt) (projects c).

(** [ProjectCollection.upload_all_content()]: a session object is always
    truthy, so only a missing one raises. *)
Definition upload_all_content (c : collection) : M unit :=
  match csession c with
  | None => raise ValueError
  | Some s => iter_m (project_upload s) (projects c)
  end.

(** [MilCubesSession.upload_file_by_path(file_path, mime_type)] with an
    explicit [mime_type] (the [None] default, guessed by the [mimetypes]
    module, is not modelled).  [except IOError] catches every [OSError] and
    every [requests] exception, which derive from it. *)
Definition upload_file_by_path (s : session) (file_path mime_type : string) : M (value * value) :=
  try_except
    (content <- read_bytes file_path ;;
     upload_file s content (basename file_path) mime_type)
    (fun e => match e with
              | OSError _ => raise APIError
              | RequestException => raise APIError
              | e => raise e
              end).

(** [p.upload_from_file(file_path, session)]: [self.content = f.read()],
    then [self.upload(session)]. *)
Definition upload_from_file (p : loc) (file_path : string) (s : session) : M unit :=
  o <- deref p ;;
  _ <- lift (method_lookup o "upload_from_file") ;;
  try_except
    (c <- read_text file_path ;;
     o' <- deref p ;;
     o'' <- lift (setattr o' "content" (VStr c)) ;;
     _ <- store p o'' ;;
     project_upload s p)
    (fun e => match e with
              | OSError _ => raise (OSError OSGeneric)
              | RequestException => raise (OSError OSGeneric)
              | e => raise e
              end).

(** A Python dict with arbitrary (hashable) keys: [d[k] = v] keeps the
    original key object when an equal one is present. *)
Definition hashable (v : value) : bool :=
  match v with VList _ | VDict _ => false | _ => true end.

Fixpoint vdict_set (k v : value) (d : list (value * value)) : list (value * value) :=
  match d with
  | [] => [(k, v)]
  | (k', v') :: d' => if py_eq k k' then (k', v) :: d' else (k', v') :: vdict_set k v d'
  end.

Definition py_setitem (d : list (value * value)) (k v : value) : exn + list (value * value) :=
  if hashable k then inr (vdict_set k v d) else inl TypeError.

Fixpoint fold_m {A B} (f : B -> A -> M B) (l : list A) (b : B) : M B :=
  match l with
  | [] => ret b
  | x :: l' => b' <- f b x ;; fold_m f l' b'
  end.

(** One iteration of the loop of [from_cookies_json]:
    [cookies[item['name']] = item['value']]; the right-hand side is
    evaluated first. *)
Definition set_cookie (cookies : list (value * value)) (item : value) : M (list (value * value)) :=
  value <- lift (getitem item "value") ;;
  name <- lift (getitem item "name") ;;
  lift (py_setitem cookies name value).

(** [MilCubesSession.from_cookies_json(cookie_json)]; the argument is the
    outcome of [json.loads(cookie_json)] ([None]: not valid JSON).  The requests of the model carry no cookies, so the dict built is
    passed on to [from_cookies] only through its effects (the errors). *)
Definition from_cookies_json (j : option value) : M session :=
  try_except
    (items <- match j with Some v => lift (py_iter v) | None => raise JSONDecodeError end ;;
     _ <- fold_m set_cookie items [] ;;
     from_cookies)
    (fun _ => raise AuthenticationError).

(** ** Logging in with a user name and password *)

(** The login pages are read as text: a page is a transport failure or a
    response with its status, headers and body text. *)
Inductive page : Type :=
| PageFailure
| Page (status : Z) (headers : list (string * string)) (text : string).

Definition page_server := request -> page.

(** [s[n:]]. *)
Fixpoint sdrop (n : nat) (s : string) : string :=
  match n, s with
  | O, _ => s
  | S n', String _ s' => sdrop n' s'
  | S _, EmptyString => EmptyString
  end.

(** [str.split(sep)] for a non-empty separator, scanning left to right. *)
Fixpoint split_str_go (fuel : nat) (sep s : string) : list string :=
  match fuel with
  | O => [s]
  | S f =>
      match s with
      | EmptyString => [""]
      | String a s' =>
          if is_prefix sep s
          then "" :: split_str_go f sep (sdrop (String.length sep) s)
          else match split_str_go f sep s' with
               | h :: t => String a h :: t
               | [] => [String a EmptyString]
               end
      end
  end.

Definition split_str (sep s : string) : list string := split_str_go (String.length s + 1) sep s.

Definition dquote : string := String (Ascii.ascii_of_nat 34) EmptyString.

(** The markers around the CSRF token in the index page: [csrf-token],
    a double quote, [ content=], a double quote; then a double quote and [>]. *)
Definition CSRF_MARKER : string := "csrf-token" ++ dquote ++ " content=" ++ dquote.
Definition CSRF_END : string := dquote ++ ">".

(** [response.text.split(CSRF_MARKER)[1].split(CSRF_END)[0]]; [None]
    stands for the [IndexError] of a missing piece. *)
Definition csrf_token (text : string) : option string :=
  match nth_error (split_str CSRF_MARKER text) 1 with
  | Some seg => nth_error (split_str CSRF_END seg) 0
  | None => None
  end.

Definition index_request : request := mk_request "get" INDEX_URL DEFAULT_HEADERS [] [] [].

Definition login_request (username password token : string) : request :=
  mk_request "post" LOGIN_URL DEFAULT_HEADERS []
    [("email", VStr username); ("password", VStr password); ("_token", VStr token)] [].

Definition auth_request : request := mk_request "get" AUTH_URL DEFAULT_HEADERS [] [] [].

(** [MilCubesSession.from_username_password(username, password)]: three
    requests, each logged.  Inside its [try], an [AuthenticationError] is
    re-raised and any other exception (a transport failure, an
    [IndexError]) becomes an [AuthenticationError], so every failure is
    returned as one.  Redirects followed by the first GET are not modelled:
    the server answers with the final page. *)
Definition from_username_password (username password : string) (srv : page_server) (w : world)
    : (exn + session) * world :=
  let w1 := log_request w index_request in
  match srv index_request with
  | PageFailure => (inl AuthenticationError, w1)
  | Page _ _ text1 =>
      if negb (is_substring CSRF_MARKER text1) then (inl AuthenticationError, w1) else
      match csrf_token text1 with
      | None => (inl AuthenticationError, w1)
      | Some token =>
          let w2 := log_request w1 (login_request username password token) in
          match srv (login_request username password token) with
          | PageFailure => (inl AuthenticationError, w2)
          | Page st2 _ _ =>
              if negb (st2 =? 302) then (inl AuthenticationError, w2) else
              let w3 := log_request w2 auth_request in
              match srv auth_request with
              | PageFailure => (inl AuthenticationError, w3)
              | Page _ hs3 _ =>
                  match header_get "Location" hs3 with
                  | None => (inl AuthenticationError, w3)
                  | Some location =>
                      match nth_error (split_on "=" location) 1 with
                      | None => (inl AuthenticationError, w3)
                      | Some tok => (inr (session_init (Some tok)), w3)
                      end
                  end
              end
          end
      end
  end.

(** A page and a JSON response agree on status and headers. *)
Definition page_agrees (pg : page) (r : response) : Prop :=
  match pg, r with
  | PageFailure, NetFailure => True
  | Page st hs _, Response st' hs' _ => st = st' /\ hs = hs'
  | _, _ => False
  end.

(** ** Listing, printing and JSON of projects *)

(** [(project.id, project.title)], one item of [ProjectCollection.list()]. *)
Definition project_id_title (p : loc) : M (value * value) :=
  o <- deref p ;;
  i <- lift (getattr o "id") ;;
  t <- lift (getattr o "title") ;;
  ret (i, t).

(** [ProjectCollection.list()]. *)
Definition collection_list (c : collection) : M (list (value * value)) :=
  map_m project_id_title (projects c).

Definition TAB : string := String (ascii_of_nat 9) EmptyString.
Definition NL : ascii := ascii_of_nat 10.

(** [Project.__str__]: [f'({self.id})\t{self.title}']. *)
Definition project_str (p : loc) : M string :=
  o <- deref p ;;
  i <- lift (getattr o "id") ;;
  t <- lift (getattr o "title") ;;
  ret ("(" ++ py_str i ++ ")" ++ TAB ++ py_str t).

(** [ProjectCollection.__str__]: the [str] of every project, joined by
    newlines. *)
Definition collection_str (c : collection) : M string :=
  strs <- map_m project_str (projects c) ;;
  ret (concat_sep (String NL EmptyString) strs).

(** [p.to_json()]: [json.dumps(self.to_dict())].  A JSON document is
    represented by the value it encodes, so that [json.loads] of it gives
    that value back. *)
Definition project_to_json (o : obj) : exn + value :=
  match method_lookup o "to_json" with
  | inl e => inl e
  | inr _ => match project_to_dict o with inr d => inr (VDict d) | inl e => inl e end
  end.

(** [Project.from_json(json_data)], given the outcome of [json.loads]
    ([None] for a [JSONDecodeError], re-raised as ValueError);
    [cls.from_dict] unpacks the document as keyword arguments, which needs a
    mapping. *)
Definition project_from_json (j : option value) : exn + obj :=
  match j with
  | None => inl ValueError
  | Some (VDict d) => project_from_dict d
  | Some _ => inl TypeError
  end.

(** ** The command line ([cli.py]) *)

(** The commands below leave out the messages they print. *)

(** The [try] of [download_project] once a project is looked up: the
    messages read [project.title] and [project.id] before the download and
    [project.id] and [project.title] after it; a ValueError is printed. *)
Definition cli_download_found (find : M loc) : M unit :=
  try_except
    (p <- find ;;
     o <- deref p ;;
     _ <- lift (getattr o "title") ;;
     _ <- lift (getattr o "id") ;;
     _ <- download_content p "." ;;
     o' <- deref p ;;
     _ <- lift (getattr o' "id") ;;
     _ <- lift (getattr o' "title") ;;
     ret tt)
    (fun e => match e with ValueError => ret tt | e => raise e end).

(** [download_project(session, args)], [args.id] an integer or None and
    [args.title] a string or None, both tested for truth. *)
Definition cli_download_project (s : session) (arg_id arg_title : value) (arg_all : bool) : M unit :=
  projects <- get_projects s 0 1000 ;;
  if truthy arg_id then cli_download_found (find_by_id projects arg_id)
  else if truthy arg_title then cli_download_found (find_by_title projects arg_title)
  else if arg_all then download_all_content projects "."
  else ret tt.

(** The [try] of [upload_project]: a ValueError or a FileNotFoundError is
    printed, anything else propagates. *)
Definition cli_upload_found (find : M loc) (file : string) (s : session) : M unit :=
  try_except
    (p <- find ;;
     o <- deref p ;;
     _ <- lift (getattr o "title") ;;
     _ <- lift (getattr o "id") ;;
     upload_from_file p file s)
    (fun e => match e with
              | ValueError => ret tt
              | OSError FileNotFound => ret tt
              | e => raise e
              end).

(** [upload_project(session, args)]. *)
Definition cli_upload_project (s : session) (arg_id arg_title : value) (arg_file : string) : M unit :=
  projects <- get_projects s 0 1000 ;;
  if truthy arg_id && truthy (VStr arg_file) then
    cli_upload_found (find_by_id projects arg_id) arg_file s
  else if truthy arg_title && truthy (VStr arg_file) then
    cli_upload_found (find_by_title projects arg_title) arg_file s
  else ret tt.

(** ** Sample inputs *)

(** A project as the server lists it. *)
Definition sample_project : dict :=
  [("id", VInt 7); ("group_id", VInt 1); ("episode_id", VInt 2); ("title", VStr "T");
   ("cover", VStr "https://oss.example/c.png"); ("content", VStr "<p>x</p>");
   ("books", VList [VStr "b.pdf"]); ("books_file_ids", VList [VInt 11]);
   ("images", VList []); ("images_file_ids", VList []);
   ("videos", VList []); ("videos_file_ids", VList [])].

(** The same project with a JSON [null] for [books]. *)
Definition sample_project_null_books : dict :=
  dict_set "books" VNone sample_project.

(** The same project with one more server-supplied field. *)
Definition sample_project_extra : dict :=
  app sample_project [("updated_at", VStr "2024-01-01")].

(** The attributes after a run of [setattr] calls none of which names a
    special attribute: each entry is stored in turn. *)
Definition set_items (o : obj) (items : dict) : obj :=
  fold_left (fun o kv => dict_set (fst kv) (snd kv) o) items o.

(** A session with a token, and an empty world. *)
Definition sample_session : session := session_init (Some "tok").

Definition empty_world : world :=
  {| w_heap := []; w_log := []; w_fs := {| fs_cwd := []; fs_nodes := [] |} |}.

(** What [_make_request] ends with, as a function of the final response
    (used to state its contract). *)
Definition make_request_outcome (r : response) : exn + value :=
  match r with
  | NetFailure => inl APIError
  | Response st _ j =>
      if (400 <=? st) && (st <? 600) then inl APIError
      else match j with
           | None => inl APIError
           | Some d =>
               match py_contains d "data" with
               | inl e => inl e
               | inr false => inl APIError
               | inr true => getitem d "data"
               end
           end
  end.

Definition api_request (s : session) (meth endpoint : string) (params data : dict) : request :=
  mk_request meth (API_URL ++ "/" ++ endpoint) (headers s) params data [].

(** The three requests of [upload_file]: the signature request, the
    object-storage POST, and the registration. *)
Definition sig_request (s : session) (file_name : string) : request :=
  api_request s "get" "file" [("path", VStr file_name); ("method", VStr "post")] [].

Definition oss_request (s : session) (host : string) (key policy accessid sig : value)
    (content file_name mime_type : string) : request :=
  mk_request "post" host (headers s) []
    [("key", key); ("success_action_status", VStr "200"); ("policy", policy);
     ("OSSAccessKeyId", accessid); ("Signature", sig)]
    [("file", (file_name, content, mime_type))].

Definition register_request (s : session) (file_name mime_type : string) (dir : value) : request :=
  api_request s "post" "file" [] [("mime", VStr mime_type); ("name", VStr file_name); ("path", dir)].

(** The mocked platform of the two-phase upload example: signature
    [{host, dir, policy, accessid, signature}], registration [{id: 42}]; the
    object-storage host answers 403. *)
Definition upload_mock : server := fun rq =>
  if String.eqb (rq_method rq) "get" then
    Response 200 [] (Some (VDict [("data", VDict [("signature", VDict
      [("host", VStr "https://oss.example"); ("dir", VStr "/d/key"); ("policy", VStr "P");
       ("accessid", VStr "AK"); ("signature", VStr "SIG")])])]))
  else if String.eqb (rq_url rq) "https://oss.example" then Response 403 [] None
  else Response 200 [] (Some (VDict [("data", VDict [("id", VInt 42)])])).

(** The lookup as the spec describes it: the first project, in list order,
    whose attribute [attr] equals [x]; on a match it is refreshed through the
    collection's session, if any, and returned; no match is a ValueError. *)
Definition attr_matches (heap : list obj) (attr : string) (x : value) (p : loc) : bool :=
  match nth_error heap p with
  | Some o => match dict_get attr o with Some v => py_eq v x | None => false end
  | None => false
  end.

Definition first_match (heap : list obj) (attr : string) (x : value) (ps : list loc) : option loc :=
  hd_error (filter (attr_matches heap attr x) ps).

Definition find_expected (attr : string) (c : collection) (x : value) : M loc :=
  fun srv w =>
    match first_match (w_heap w) attr x (projects c) with
    | None => raise ValueError srv w
    | Some p =>
        (_ <- match csession c with Some s => project_update s p | None => ret tt end ;;
         ret p) srv w
    end.

(** Two listed projects, held by a collection with a session, and a platform
    that serves project 2. *)
Definition sample_listed_1 : dict :=
  dict_set "title" (VStr "A") (dict_set "id" (VInt 1) sample_project).
Definition sample_listed_2 : dict :=
  dict_set "title" (VStr "B") (dict_set "id" (VInt 2) sample_project).

Definition obj_of (d : dict) : obj :=
  match project_from_dict d with inr o => o | inl _ => [] end.

Definition listed_world : world :=
  {| w_heap := [obj_of sample_listed_1; obj_of sample_listed_2]; w_log := [];
     w_fs := {| fs_cwd := []; fs_nodes := [] |} |}.

Definition listed_collection : collection :=
  {| projects := [0%nat; 1%nat]; csession := Some sample_session |}.

Definition project_server (d : dict) : server := fun _ =>
  Response 200 [] (Some (VDict [("data", VDict d)])).

(** The admin login answering with a redirect to [loc]. *)
Definition redirect_server (loc : string) : server := fun _ =>
  Response 302 [("Location", loc)] None.

(** A world holding the project with an extension field. *)
Definition extra_world : world :=
  {| w_heap := [obj_of sample_project_extra]; w_log := [];
     w_fs := {| fs_cwd := []; fs_nodes := [] |} |}.

(** The project whose title contains a slash. *)
Definition project_world : world :=
  {| w_heap := [obj_of sample_project]; w_log := [];
     w_fs := {| fs_cwd := []; fs_nodes := [] |} |}.

Definition slash_world : world :=
  {| w_heap := [obj_of (dict_set "title" (VStr "a/b") sample_project)]; w_log := [];
     w_fs := {| fs_cwd := []; fs_nodes := [] |} |}.

(** A platform that answers HTTP 500 to everything. *)
Definition server_500 : server := fun _ => Response 500 [] (Some (VDict [])).

(** A platform that accepts every call, answering [{"data": null}]. *)
Definition accept_all : server := fun _ => Response 200 [] (Some (VDict [("data", VNone)])).

(** A cookie record [from_cookies_json] can use: an object with a
    hashable [name] and a [value]. *)
Definition cookie_item_ok (item : value) : Prop :=
  exists d n x, item = VDict d /\ dict_get "name" d = Some n /\ dict_get "value" d = Some x /\
                hashable n = true.

(** An exception [except IOError] would not catch. *)
Definition io_free (e : exn) : bool :=
  match e with OSError _ | RequestException => false | _ => true end.

Definition no_io {A} (m : M A) : Prop :=
  forall srv w e, fst (m srv w) = inl e -> io_free e = true.

(** A file system with a directory [docs] holding [a.pdf]. *)
Definition docs_world : world :=
  {| w_heap := []; w_log := [];
     w_fs := {| fs_cwd := []; fs_nodes := [(["docs"], NDir); (["docs"; "a.pdf"], NFile "PDF")] |} |}.

(** The sample project and a file [new.html] in the current directory. *)
Definition html_world : world :=
  {| w_heap := [obj_of sample_project]; w_log := [];
     w_fs := {| fs_cwd := []; fs_nodes := [(["new.html"], NFile "<p>y</p>")] |} |}.

(** The file [download_content] writes for the project at [p], and its
    content, when the project has an id, a title and a string content. *)
Definition download_entry (heap : list obj) (p : loc) : option (string * string) :=
  match nth_error heap p with
  | Some o =>
      match dict_get "id" o, dict_get "title" o, dict_get "content" o with
      | Some i, Some t, Some (VStr x) => Some ((py_str i ++ "-" ++ py_str t ++ ".html")%string, x)
      | _, _, _ => None
      end
  | None => None
  end.

Definition download_step (heap : list obj) (D : list string) (fs : filesys) (p : loc) : filesys :=
  match download_entry heap p with
  | Some (n, x) => fs_set fs (app D [n]) (NFile x)
  | None => fs
  end.

(** The content of the last project of [ps] whose file is [q]. *)
Fixpoint last_download (heap : list obj) (D : list string) (ps : list loc) (q : list string) : option string :=
  match ps with
  | [] => None
  | p :: ps' =>
      match last_download heap D ps' q with
      | Some x => Some x
      | None =>
          match download_entry heap p with
          | Some (n, x) => if path_eqb q (app D [n]) then Some x else None
          | None => None
          end
      end
  end.

(** What [download_content] needs of a project, the hypotheses of C7, with
    the output directory [out] naming [D] in the file system [fs]. *)
Definition download_ok (heap : list obj) (out : string) (D : list string) (fs : filesys) (p : loc) : Prop :=
  exists o i t x,
    nth_error heap p = Some o /\ dict_mem "download_content" o = false /\
    dict_get "id" o = Some i /\ dict_get "title" o = Some t /\ dict_get "content" o = Some (VStr x) /\
    has_slash (py_str i) = false /\ has_slash (py_str t) = false /\
    has_surrogate (path_join out (py_str i ++ "-" ++ py_str t ++ ".html")) = false /\
    has_char NUL (path_join out (py_str i ++ "-" ++ py_str t ++ ".html")) = false /\
    (String.length (path_join out (py_str i ++ "-" ++ py_str t ++ ".html")) < PATH_MAX)%nat /\
    (String.length (py_str i ++ "-" ++ py_str t ++ ".html") <= NAME_MAX)%nat /\
    has_surrogate x = false /\
    fs_lookup fs (app D [(py_str i ++ "-" ++ py_str t ++ ".html")%string]) <> Some NDir.

(** The two listed projects, a file [notes.txt], and the same world once
    [makedirs("out")] has run. *)
Definition two_projects_world : world :=
  {| w_heap := [obj_of sample_listed_1; obj_of sample_listed_2]; w_log := [];
     w_fs := {| fs_cwd := []; fs_nodes := [(["notes.txt"], NFile "n")] |} |}.

Definition two_projects_made : world :=
  {| w_heap := w_heap two_projects_world; w_log := [];
     w_fs := {| fs_cwd := []; fs_nodes := [(["notes.txt"], NFile "n"); (["out"], NDir)] |} |}.

(** [del o.k]: the project without the attribute [k]. *)
Definition delattr (k : string) (o : obj) : obj := filter (fun kv => negb (String.eqb (fst kv) k)) o.

(** A separator none of whose proper suffixes starts it. *)
Definition border_free (sep : string) : Prop :=
  forall k, (0 < k < String.length sep)%nat -> is_prefix (sdrop k sep) sep = false.

(** A login site: the index page, the answer status to the login form,
    and a redirection carrying a token. *)
Definition login_site (login_status : Z) (index_text : string) : page_server :=
  fun rq =>
    if String.eqb (rq_url rq) INDEX_URL then Page 200 [] index_text
    else if String.eqb (rq_url rq) LOGIN_URL then Page login_status [] ""
    else Page 302 [("Location", INDEX_URL ++ "?token=abc")] "".

Definition auth_site : server :=
  fun _ => Response 302 [("Location", INDEX_URL ++ "?token=abc")] None.

Definition csrf_page : string :=
  "<head><meta name=" ++ dquote ++ CSRF_MARKER ++ "T0k3n" ++ CSRF_END ++ "</head>".

(** A project whose [id] and [title] print without a newline. *)
Definition one_line (heap : list obj) (p : loc) : Prop :=
  exists o i t, nth_error heap p = Some o /\ getattr o "id" = inr i /\ getattr o "title" = inr t /\
    has_char NL (py_str i) = false /\ has_char NL (py_str t) = false.

(** A computation that changes neither the heap nor the request log. *)
Definition hl_pres {A} (m : M A) : Prop :=
  forall srv w, w_heap (snd (m srv w)) = w_heap w /\ w_log (snd (m srv w)) = w_log w.

(** A computation that leaves the file system as it is. *)
Definition fs_pres {A} (m : M A) : Prop := forall srv w, w_fs (snd (m srv w)) = w_fs w.

(** A platform listing two projects and answering every other call with the
    details of the first one. *)
Definition cli_server : server := fun rq =>
  if String.eqb (rq_url rq) (API_URL ++ "/project") then
    Response 200 [] (Some (VDict [("data", VList [VDict sample_listed_1; VDict sample_listed_2])]))
  else Response 200 [] (Some (VDict [("data", VDict sample_listed_1)])).

(** * Properties *)

(** ** Dictionaries and attributes *)

Lemma dict_get_set {A} (k k' : string) (v : A) (d : list (string * A)) :
  dict_get k (dict_set k' v d) = if String.eqb k k' then Some v else dict_get k d.
Proof.
  induction d as [|[k0 v0] d IH]; simpl.
  - reflexivity.
  - destruct (String.eqb k' k0) eqn:E1; simpl.
    + apply String.eqb_eq in E1; subst k0.
      destruct (String.eqb k k'); reflexivity.
    + rewrite IH. destruct (String.eqb k k') eqn:E2; [|reflexivity].
      apply String.eqb_eq in E2; subst k'. rewrite E1. reflexivity.
Qed.

Lemma mem_str_In (x : string) (l : list string) : mem_str x l = true <-> In x l.
Proof.
  unfold mem_str. rewrite existsb_exists. split.
  - intros [y [Hy E]]. apply String.eqb_eq in E. subst. exact Hy.
  - intros H. exists x. split; [exact H | apply String.eqb_refl].
Qed.

(** Setting a list of fields, each to a value depending on the field only. *)
Lemma dict_get_fold_fields (g : string -> value) (fs : list string) (o : obj) (k : string) :
  dict_get k (fold_left (fun o f => dict_set f (g f) o) fs o) =
  if mem_str k fs then Some (g k) else dict_get k o.
Proof.
  revert o. induction fs as [|f fs IH]; intros o; simpl.
  - reflexivity.
  - rewrite IH. rewrite dict_get_set.
    destruct (String.eqb k f) eqn:E; simpl.
    + apply String.eqb_eq in E; subst. destruct (mem_str f fs); reflexivity.
    + destruct (mem_str k fs); reflexivity.
Qed.

(** Setting the entries of a dict whose keys are pairwise distinct. *)
Lemma dict_get_set_items (l : dict) (o : obj) (k : string) :
  NoDup (keys l) ->
  dict_get k (set_items o l) =
  match dict_get k l with Some v => Some v | None => dict_get k o end.
Proof.
  unfold set_items. revert o. induction l as [|[k0 v0] l IH]; intros o Hnd; simpl.
  - reflexivity.
  - inversion Hnd as [|? ? Hnotin Hnd']; subst.
    rewrite (IH _ Hnd'). rewrite dict_get_set.
    destruct (String.eqb k k0) eqn:E.
    + apply String.eqb_eq in E; subst k0.
      destruct (dict_get k l) eqn:Eg; [|reflexivity].
      exfalso. apply Hnotin. clear -Eg. induction l as [|[k1 v1] l IH]; simpl in *.
      * discriminate.
      * destruct (String.eqb k k1) eqn:E'.
        -- left. symmetry. apply String.eqb_eq. exact E'.
        -- right. apply IH. exact Eg.
    + reflexivity.
Qed.

Lemma dict_get_set_items_notin (l : dict) (o : obj) (k : string) :
  dict_get k l = None -> dict_get k (set_items o l) = dict_get k o.
Proof.
  unfold set_items. revert o. induction l as [|[k0 v0] l IH]; intros o Hk; simpl in *.
  - reflexivity.
  - destruct (String.eqb k k0) eqn:E; [discriminate|].
    rewrite (IH _ Hk). rewrite dict_get_set, E. reflexivity.
Qed.

Lemma set_items_app (o : obj) (l1 l2 : dict) :
  set_items o (app l1 l2) = set_items (set_items o l1) l2.
Proof. unfold set_items. apply fold_left_app. Qed.

(** [setattr] on a name that is not special stores the value. *)
Lemma setattr_plain (o : obj) (k : string) (v : value) :
  special_attr k = false -> setattr o k v = inr (dict_set k v o).
Proof.
  unfold special_attr, setattr. intros H.
  apply orb_false_elim in H as [H H3]. apply orb_false_elim in H as [H1 H2].
  rewrite H1, H2, H3. reflexivity.
Qed.

Lemma setattr_all_plain (o : obj) (l : dict) :
  (forall k, In k (keys l) -> special_attr k = false) ->
  setattr_all o l = inr (set_items o l).
Proof.
  unfold set_items. revert o. induction l as [|[k v] l IH]; intros o Hl; simpl.
  - reflexivity.
  - rewrite setattr_plain by (apply Hl; simpl; auto).
    apply IH. intros k' Hk'. apply Hl. simpl. auto.
Qed.

(** Without a [__dict__] entry, a successful run of [setattr] calls has
    stored every entry. *)
Lemma setattr_all_no_dict (o o' : obj) (l : dict) :
  dict_get "__dict__" l = None -> setattr_all o l = inr o' -> o' = set_items o l.
Proof.
  unfold set_items. revert o. induction l as [|[k v] l IH]; intros o Hd Hs;
    cbn [dict_get setattr_all fold_left fst snd] in *.
  - injection Hs as <-. reflexivity.
  - destruct (String.eqb "__dict__" k) eqn:Ed; [discriminate|].
    unfold setattr in Hs.
    destruct (String.eqb k "__class__"); [discriminate|].
    rewrite String.eqb_sym, Ed in Hs.
    destruct (String.eqb k "__weakref__"); [discriminate|].
    apply IH; assumption.
Qed.

Lemma dict_get_filter (p : string * value -> bool) (l : dict) (k : string) :
  (forall v, p (k, v) = true) -> dict_get k (filter p l) = dict_get k l.
Proof.
  intros Hp. induction l as [|[k0 v0] l IH]; simpl.
  - reflexivity.
  - destruct (String.eqb k k0) eqn:E.
    + apply String.eqb_eq in E; subst k0. rewrite Hp. simpl. rewrite String.eqb_refl. reflexivity.
    + destruct (p (k0, v0)); simpl; [rewrite E|]; exact IH.
Qed.

Lemma dict_get_filter_out (p : string * value -> bool) (l : dict) (k : string) :
  (forall v, p (k, v) = false) -> dict_get k (filter p l) = None.
Proof.
  intros Hp. induction l as [|[k0 v0] l IH]; simpl.
  - reflexivity.
  - destruct (String.eqb k k0) eqn:E.
    + apply String.eqb_eq in E; subst k0. rewrite Hp. exact IH.
    + destruct (p (k0, v0)); simpl; [rewrite E|]; exact IH.
Qed.

Lemma dict_get_In {A} (k : string) (v : A) (d : list (string * A)) :
  dict_get k d = Some v -> In k (keys d).
Proof.
  induction d as [|[k0 v0] d IH]; simpl; [discriminate|].
  destruct (String.eqb k k0) eqn:E.
  - intros _. left. symmetry. apply String.eqb_eq. exact E.
  - intros H. right. apply IH. exact H.
Qed.

Lemma In_dict_get {A} (k : string) (d : list (string * A)) :
  In k (keys d) -> exists v, dict_get k d = Some v.
Proof.
  induction d as [|[k0 v0] d IH]; simpl; [contradiction|].
  intros H. destruct (String.eqb k k0) eqn:E; [eauto|].
  destruct H as [H|H]; [subst; rewrite String.eqb_refl in E; discriminate|].
  apply IH. exact H.
Qed.

Lemma dict_get_notin {A} (k : string) (d : list (string * A)) :
  ~ In k (keys d) -> dict_get k d = None.
Proof.
  intros H. destruct (dict_get k d) eqn:E; [|reflexivity].
  exfalso. apply H. eapply dict_get_In. exact E.
Qed.

Lemma keys_filter_incl (p : string * value -> bool) (l : dict) (k : string) :
  In k (keys (filter p l)) -> In k (keys l).
Proof.
  induction l as [|[k0 v0] l IH]; simpl; [auto|].
  destruct (p (k0, v0)); simpl; intuition.
Qed.

Lemma NoDup_keys_filter (p : string * value -> bool) (l : dict) :
  NoDup (keys l) -> NoDup (keys (filter p l)).
Proof.
  induction l as [|[k0 v0] l IH]; simpl; intros Hnd; [constructor|].
  inversion Hnd; subst.
  destruct (p (k0, v0)); simpl; [constructor|]; auto.
  intros Hin. apply keys_filter_incl in Hin. contradiction.
Qed.

Lemma init_fixed_attrs_get (data : dict) (k : string) :
  dict_get k (init_fixed_attrs data) =
    if mem_str k list_fields then Some (py_or (kwarg_or_none data k) (VList []))
    else if mem_str k required_fields then Some (kwarg_or_none data k)
    else None.
Proof.
  unfold init_fixed_attrs.
  rewrite (dict_get_fold_fields (fun f => py_or (kwarg_or_none data f) (VList []))).
  rewrite (dict_get_fold_fields (kwarg_or_none data)). reflexivity.
Qed.

Lemma not_param_not_field (k : string) :
  mem_str k init_params = false ->
  mem_str k list_fields = false /\ mem_str k required_fields = false.
Proof.
  intros Hk. split; apply not_true_iff_false; intros Hin; apply mem_str_In in Hin;
    rewrite <- not_true_iff_false in Hk; apply Hk, mem_str_In;
    unfold init_params, known_fields; right; apply in_or_app; auto.
Qed.

Lemma dict_get_init_kwargs (data : dict) (k : string) :
  mem_str k init_params = false -> dict_get k (init_kwargs data) = dict_get k data.
Proof.
  intros Hk. unfold init_kwargs. apply dict_get_filter.
  intros v. cbn [fst]. unfold mem_str in Hk. rewrite Hk. reflexivity.
Qed.

Lemma init_params_dict : mem_str "__dict__" init_params = false.
Proof. reflexivity. Qed.

(** When the constructing dict has no [__dict__] key, a successful
    [Project.__init__] holds the twelve assignments and then the [kwargs]. *)
Lemma project_init_set (data : dict) (o : obj) :
  project_init data = inr o -> dict_get "__dict__" data = None ->
  o = set_items (init_fixed_attrs data) (init_kwargs data).
Proof.
  unfold project_init. intros Hinit Hd.
  destruct (dict_mem "self" data); [discriminate|].
  destruct (negb _); [discriminate|].
  apply setattr_all_no_dict; [|exact Hinit].
  rewrite dict_get_init_kwargs by exact init_params_dict. exact Hd.
Qed.

(** What [Project.__init__] stores under a parameter name. *)
Lemma project_init_param (data : dict) (o : obj) (k : string) :
  project_init data = inr o -> dict_get "__dict__" data = None ->
  mem_str k init_params = true ->
  dict_get k o =
    if mem_str k list_fields then Some (py_or (kwarg_or_none data k) (VList []))
    else if mem_str k required_fields then Some (kwarg_or_none data k)
    else None.
Proof.
  intros Hinit Hd Hk. rewrite (project_init_set data o Hinit Hd).
  rewrite dict_get_set_items_notin.
  - apply init_fixed_attrs_get.
  - unfold init_kwargs. apply dict_get_filter_out. intros v. cbn [fst].
    unfold mem_str in Hk. rewrite Hk. reflexivity.
Qed.

(** What [Project.__init__] stores under any other name: the [kwargs]. *)
Lemma project_init_extra (data : dict) (o : obj) (k : string) :
  NoDup (keys data) ->
  project_init data = inr o -> dict_get "__dict__" data = None ->
  mem_str k init_params = false ->
  dict_get k o = dict_get k data.
Proof.
  intros Hnd Hinit Hd Hk. rewrite (project_init_set data o Hinit Hd).
  rewrite dict_get_set_items by (apply NoDup_keys_filter; exact Hnd).
  rewrite dict_get_init_kwargs by exact Hk.
  destruct (dict_get k data); [reflexivity|].
  rewrite init_fixed_attrs_get.
  destruct (not_param_not_field k Hk) as [-> ->]. reflexivity.
Qed.

(** A name that is neither a parameter nor a key of the dict is not an
    attribute. *)
Lemma project_init_absent (data : dict) (o : obj) (k : string) :
  project_init data = inr o -> dict_get "__dict__" data = None ->
  mem_str k init_params = false -> dict_get k data = None ->
  dict_get k o = None.
Proof.
  intros Hinit Hd Hk Hkd. rewrite (project_init_set data o Hinit Hd).
  rewrite dict_get_set_items_notin by (rewrite dict_get_init_kwargs by exact Hk; exact Hkd).
  rewrite init_fixed_attrs_get.
  destruct (not_param_not_field k Hk) as [-> ->]. reflexivity.
Qed.

(** [Project.__init__] succeeds when [self] is not passed, the six required
    parameters are, and no key names a special attribute. *)
Lemma project_init_ok (data : dict) :
  dict_get "self" data = None ->
  (forall f, In f required_fields -> In f (keys data)) ->
  (forall k, In k (keys data) -> special_attr k = false) ->
  exists o, project_init data = inr o.
Proof.
  intros Hself Hreq Hsp.
  assert (Hall : forallb (fun f => dict_mem f data) required_fields = true).
  { apply forallb_forall. intros f Hf. unfold dict_mem.
    destruct (In_dict_get f data (Hreq f Hf)) as [v Hv]. rewrite Hv. reflexivity. }
  unfold project_init. rewrite Hall. unfold dict_mem at 1. rewrite Hself. simpl.
  rewrite setattr_all_plain; [eauto|].
  intros k Hk. apply Hsp. unfold init_kwargs in Hk. eapply keys_filter_incl. exact Hk.
Qed.

Lemma to_dict_fields_ok (o : obj) (fs : list string) :
  (forall f, In f fs -> dict_get f o <> None) ->
  exists r, to_dict_fields o fs = inr r /\ keys r = fs /\
    forall k, dict_get k r = if mem_str k fs then dict_get k o else None.
Proof.
  induction fs as [|f fs IH]; intros Hall; simpl.
  - exists []. auto.
  - destruct IH as [r [Hr [Hk Hg]]]; [intros; apply Hall; simpl; auto|].
    unfold getattr. destruct (dict_get f o) eqn:Ef.
    2:{ exfalso. apply (Hall f); simpl; auto. }
    rewrite Hr. exists ((f, v) :: r). split; [reflexivity|]. split; [simpl; congruence|].
    intros k. simpl. rewrite Hg. destruct (String.eqb k f) eqn:E; simpl.
    + apply String.eqb_eq in E. subst. rewrite Ef. reflexivity.
    + reflexivity.
Qed.

(** [p.to_dict()] on an object that has the twelve known attributes and no
    attribute shadowing the method. *)
Lemma project_to_dict_ok (o : obj) :
  dict_mem "to_dict" o = false ->
  (forall f, In f known_fields -> dict_get f o <> None) ->
  exists r, project_to_dict o = inr r /\ keys r = known_fields /\
    forall k, dict_get k r = if mem_str k known_fields then dict_get k o else None.
Proof.
  intros Hm Hall. unfold project_to_dict, method_lookup. rewrite Hm.
  apply to_dict_fields_ok. exact Hall.
Qed.

Lemma known_fields_NoDup : NoDup known_fields.
Proof. unfold known_fields, required_fields, list_fields; simpl. repeat constructor; simpl; intuition discriminate. Qed.

Lemma self_not_known : ~ In "self" known_fields.
Proof. unfold known_fields, required_fields, list_fields; simpl. intuition discriminate. Qed.

Lemma known_param (k : string) : In k known_fields -> mem_str k init_params = true.
Proof. intros H. apply mem_str_In. right. exact H. Qed.

Lemma known_split (k : string) :
  In k known_fields -> mem_str k list_fields = true \/ mem_str k required_fields = true.
Proof.
  intros H. unfold known_fields in H. apply in_app_or in H.
  destruct H as [H|H]; apply mem_str_In in H; auto.
Qed.

Lemma known_not_special (k : string) : In k known_fields -> special_attr k = false.
Proof.
  unfold known_fields, required_fields, list_fields. simpl.
  intros H. repeat (destruct H as [<- | H]; [reflexivity|]). contradiction.
Qed.

Lemma to_dict_not_param : mem_str "to_dict" init_params = false.
Proof. reflexivity. Qed.

(** Every known field is an attribute after construction, so [to_dict]
    succeeds unless the dict has a [to_dict] key shadowing the method. *)
Lemma project_init_to_dict (data : dict) (o : obj) :
  project_init data = inr o -> dict_get "__dict__" data = None ->
  dict_get "to_dict" data = None ->
  exists r, project_to_dict o = inr r /\ keys r = known_fields /\
    forall k, dict_get k r = if mem_str k known_fields then dict_get k o else None.
Proof.
  intros Hinit Hd Ht. apply project_to_dict_ok.
  - unfold dict_mem. rewrite (project_init_absent data o "to_dict" Hinit Hd to_dict_not_param Ht).
    reflexivity.
  - intros f Hf.
    rewrite (project_init_param data o f Hinit Hd (known_param f Hf)).
    destruct (known_split f Hf) as [-> | ->];
      [discriminate | destruct (mem_str f list_fields); discriminate].
Qed.

(** ** C1: [from_dict] then [to_dict] *)

(** C1 (as stated, refuted): a dict with exactly the twelve known fields but a
    JSON null in [books] does not come back equal (Python [==]) from
    [Project.from_dict(d).to_dict()]: [books] comes back as [[]]. *)
Lemma C1_roundtrip_null_books :
  Permutation (keys sample_project_null_books) known_fields /\
  exists r, from_dict_to_dict sample_project_null_books = inr r /\
            dict_get "books" r = Some (VList []) /\
            py_eq (VDict r) (VDict sample_project_null_books) = false.
Proof.
  split.
  - vm_compute. apply Permutation_refl.
  - eexists. split; [vm_compute; reflexivity|]. split; vm_compute; reflexivity.
Qed.

(** C1 (amended): for a dict whose keys are exactly the twelve known fields
    and whose six list fields each hold a list or another truthy value,
    [Project.from_dict(d).to_dict()] has the same keys as [d] and the same
    value under every key. *)
Theorem from_dict_to_dict_known_fields (d : dict) :
  Permutation (keys d) known_fields ->
  (forall f v, In f list_fields -> dict_get f d = Some v -> truthy v = true \/ v = VList []) ->
  exists r, from_dict_to_dict d = inr r /\ Permutation (keys r) (keys d) /\
            forall k, dict_get k r = dict_get k d.
Proof.
  intros Hperm Hlist.
  assert (Hin : forall k, In k (keys d) <-> In k known_fields).
  { intros k. split; intros H; [apply (Permutation_in _ Hperm) | apply (Permutation_in _ (Permutation_sym Hperm))]; exact H. }
  assert (Hnot : forall k, mem_str k known_fields = false -> dict_get k d = None).
  { intros k Hk. apply dict_get_notin. rewrite Hin. intros H. apply mem_str_In in H. congruence. }
  destruct (project_init_ok d) as [o Ho].
  - apply dict_get_notin. rewrite Hin. apply self_not_known.
  - intros f Hf. apply Hin. unfold known_fields. apply in_or_app. left. exact Hf.
  - intros k Hk. apply known_not_special, Hin, Hk.
  - assert (Hd : dict_get "__dict__" d = None) by (apply Hnot; reflexivity).
    destruct (project_init_to_dict d o Ho Hd) as [r [Hr [Hkeys Hget]]];
      [apply Hnot; reflexivity|].
    exists r. unfold from_dict_to_dict, project_from_dict. rewrite Ho, Hr.
    split; [reflexivity|]. split; [rewrite Hkeys; apply Permutation_sym; exact Hperm|].
    intros k. rewrite Hget. destruct (mem_str k known_fields) eqn:Ek.
    + apply mem_str_In in Ek.
      rewrite (project_init_param d o k Ho Hd (known_param k Ek)).
      destruct (In_dict_get k d (proj2 (Hin k) Ek)) as [v Hv].
      unfold kwarg_or_none. rewrite Hv.
      destruct (mem_str k list_fields) eqn:El.
      * apply mem_str_In in El. unfold py_or.
        destruct (Hlist k v El Hv) as [Ht | ->]; [rewrite Ht|]; reflexivity.
      * destruct (known_split k Ek) as [E | ->]; [congruence | reflexivity].
    + symmetry. apply dict_get_notin. rewrite Hin. intros H.
      apply mem_str_In in H. congruence.
Qed.

(** A witness: the sample project satisfies the hypotheses. *)
Lemma from_dict_to_dict_known_fields_witness :
  Permutation (keys sample_project) known_fields /\
  exists r, from_dict_to_dict sample_project = inr r /\
            Permutation (keys r) (keys sample_project) /\
            forall k, dict_get k r = dict_get k sample_project.
Proof.
  assert (Hp : Permutation (keys sample_project) known_fields)
    by (vm_compute; apply Permutation_refl).
  split; [exact Hp|].
  apply (from_dict_to_dict_known_fields sample_project Hp).
  intros f v Hf Hv. unfold list_fields in Hf. simpl in Hf.
  repeat (destruct Hf as [<- | Hf]; [vm_compute in Hv; injection Hv as <-; vm_compute; auto|]).
  contradiction.
Defined.

(** ** C10: list parameters default to [[]] *)

(** C10 (as stated, refuted): a [__dict__] key of the constructing dict
    replaces the attributes set so far, so [books] is not [[]] although it
    is absent from the dict. *)
Lemma C10_dict_key_replaces_attributes :
  dict_get "books" (app (delattr "books" sample_project) [("__dict__", VDict [("books", VInt 5)])]) = None /\
  exists o, project_from_dict (app (delattr "books" sample_project) [("__dict__", VDict [("books", VInt 5)])]) = inr o /\
            dict_get "books" o = Some (VInt 5).
Proof. split; [vm_compute; reflexivity|]. eexists. split; vm_compute; reflexivity. Qed.

(** C10 (amended): for a project built from a dict without a [__dict__]
    key, a list field absent from the dict or None there is the attribute
    [[]]; if the dict has no key [to_dict] either, it is [[]] in [to_dict()]. *)
Theorem project_list_field_default (d : dict) (o : obj) (f : string) :
  project_from_dict d = inr o ->
  dict_get "__dict__" d = None ->
  In f list_fields ->
  dict_get f d = None \/ dict_get f d = Some VNone ->
  dict_get f o = Some (VList []) /\
  (dict_get "to_dict" d = None ->
   exists r, project_to_dict o = inr r /\ dict_get f r = Some (VList [])).
Proof.
  intros Ho Hd Hf Hnone.
  assert (Hk : In f known_fields) by (unfold known_fields; apply in_or_app; right; exact Hf).
  assert (Ho' : dict_get f o = Some (VList [])).
  { rewrite (project_init_param d o f Ho Hd (known_param f Hk)).
    apply mem_str_In in Hf. rewrite Hf. unfold kwarg_or_none.
    destruct Hnone as [-> | ->]; reflexivity. }
  split; [exact Ho'|]. intros Ht.
  destruct (project_init_to_dict d o Ho Hd Ht) as [r [Hr [_ Hget]]].
  exists r. split; [exact Hr|]. rewrite Hget.
  apply mem_str_In in Hk. rewrite Hk. exact Ho'.
Qed.

Lemma project_list_field_default_witness :
  exists o, project_from_dict sample_project_null_books = inr o /\
    (dict_get "books" o = Some (VList []) /\
     (dict_get "to_dict" sample_project_null_books = None ->
      exists r, project_to_dict o = inr r /\ dict_get "books" r = Some (VList []))).
Proof.
  eexists. split; [vm_compute; reflexivity|].
  apply (project_list_field_default sample_project_null_books).
  - vm_compute. reflexivity.
  - vm_compute. reflexivity.
  - simpl. auto.
  - right. vm_compute. reflexivity.
Defined.

(** ** C4: [_make_request] *)

Lemma make_request_spec (s : session) (meth ep : string) (params data : dict) (srv : server) (w : world) :
  make_request s meth ep params data srv w =
  (make_request_outcome (srv (api_request s meth ep params data)),
   log_request w (api_request s meth ep params data)).
Proof.
  unfold make_request, try_except, bind, http, api_request, make_request_outcome.
  destruct (srv _) as [|st hs j]; [reflexivity|].
  unfold raise_for_status, raise, ret.
  destruct ((400 <=? st) && (st <? 600)); [reflexivity|].
  destruct j as [d|]; [|reflexivity]. unfold json_of, ret, lift.
  destruct (py_contains d "data") as [e|[|]] eqn:Ec; simpl.
  - destruct d; simpl in Ec; try discriminate; injection Ec as <-; reflexivity.
  - unfold getitem. destruct d; try reflexivity. destruct (dict_get "data" d); reflexivity.
  - reflexivity.
Qed.


Lemma make_request_result (s : session) (meth ep : string) (params data : dict) (srv : server) (w : world) :
  fst (make_request s meth ep params data srv w) =
  make_request_outcome (srv (api_request s meth ep params data)).
Proof. rewrite make_request_spec. reflexivity. Qed.

(** With every call answered by HTTP 500, each session operation ends in
    [APIError]; the project given to [upload] has the twelve known
    attributes and no attribute shadowing [upload] or [to_dict]. *)
Lemma session_ops_500 (s : session) (w : world) (hs : list (string * string)) (j : option value)
    (offset limit : Z) (pid : value) (content name mime : string) (p : loc) (o : obj) :
  nth_error (w_heap w) p = Some o ->
  dict_mem "upload" o = false -> dict_mem "to_dict" o = false ->
  (forall f, In f known_fields -> dict_get f o <> None) ->
  let srv : server := fun _ => Response 500 hs j in
  fst (get_projects s offset limit srv w) = inl APIError /\
  fst (get_project s pid srv w) = inl APIError /\
  fst (project_upload s p srv w) = inl APIError /\
  fst (upload_file s content name mime srv w) = inl APIError.
Proof.
  intros Hp Hu Ht Hall srv.
  split; [|split; [|split]].
  - unfold get_projects, bind. rewrite make_request_spec. reflexivity.
  - unfold get_project, bind. rewrite make_request_spec. reflexivity.
  - destruct (project_to_dict_ok o Ht Hall) as [r [Hr _]].
    destruct (dict_get "id" o) eqn:Hid; [|exfalso; apply (Hall "id"); [simpl; auto | exact Hid]].
    unfold project_upload, bind at 1, deref. rewrite Hp.
    unfold bind at 1, lift at 1, method_lookup. rewrite Hu.
    unfold try_except, bind, lift, getattr. rewrite Hid, Hr.
    rewrite make_request_spec. reflexivity.
  - unfold upload_file, bind. rewrite make_request_spec. reflexivity.
Qed.



(** ** C2 and C9: the two-phase upload *)

Lemma make_request_ok (s : session) (meth ep : string) (params data : dict) (srv : server) (w : world)
    (st : Z) (hs : list (string * string)) (b : dict) (v : value) :
  srv (api_request s meth ep params data) = Response st hs (Some (VDict b)) ->
  ~ (400 <= st < 600) -> dict_get "data" b = Some v ->
  make_request s meth ep params data srv w = (inr v, log_request w (api_request s meth ep params data)).
Proof.
  intros H Hst Hd. rewrite make_request_spec, H. simpl.
  replace ((400 <=? st) && (st <? 600)) with false
    by (symmetry; apply not_true_iff_false; rewrite andb_true_iff; lia).
  unfold dict_mem. rewrite Hd. reflexivity.
Qed.

Lemma bind_make_request {B} (s : session) (meth ep : string) (params data : dict)
    (k : value -> M B) (srv : server) (w : world) :
  bind (make_request s meth ep params data) k srv w =
  match make_request_outcome (srv (api_request s meth ep params data)) with
  | inl e => (inl e, log_request w (api_request s meth ep params data))
  | inr v => k v srv (log_request w (api_request s meth ep params data))
  end.
Proof.
  unfold bind at 1. rewrite make_request_spec.
  destruct (make_request_outcome _); reflexivity.
Qed.

Lemma bind_lift_inr {A B} (a : A) (k : A -> M B) : bind (lift (inr a)) k = k a.
Proof. reflexivity. Qed.

Lemma getitem_dict (d : dict) (k : string) (v : value) :
  dict_get k d = Some v -> getitem (VDict d) k = inr v.
Proof. intros H. simpl. rewrite H. reflexivity. Qed.

(** The guarded object-storage POST of [upload_file]. *)
Lemma bind_try_http {B} (rq : request) (k : unit -> M B) (srv : server) (w : world) :
  bind (try_except (_ <- http rq ;; ret tt)
          (fun e => match e with RequestException => raise APIError | e => raise e end)) k srv w =
  match srv rq with
  | NetFailure => (inl APIError, log_request w rq)
  | Response _ _ _ => k tt srv (log_request w rq)
  end.
Proof. unfold bind, try_except, http. destruct (srv rq); reflexivity. Qed.

Lemma outcome_ok (st : Z) (hs : list (string * string)) (b : dict) (v : value) :
  ~ (400 <= st < 600) -> dict_get "data" b = Some v ->
  make_request_outcome (Response st hs (Some (VDict b))) = inr v.
Proof.
  intros Hst Hd. simpl.
  replace ((400 <=? st) && (st <? 600)) with false
    by (symmetry; apply not_true_iff_false; rewrite andb_true_iff; lia).
  unfold dict_mem. rewrite Hd. reflexivity.
Qed.

Section Upload.
Variables (s : session) (content file_name mime_type : string) (srv : server) (w : world).
Variables (st1 : Z) (hs1 : list (string * string)) (b1 sd sg : dict).
Variables (host dir : string) (policy accessid sig : value).
Hypothesis Hsig : srv (sig_request s file_name) = Response st1 hs1 (Some (VDict b1)).
Hypothesis Hst1 : ~ (400 <= st1 < 600).
Hypothesis Hdata1 : dict_get "data" b1 = Some (VDict sd).
Hypothesis Hsd : dict_get "signature" sd = Some (VDict sg).
Hypothesis Hhost : dict_get "host" sg = Some (VStr host).
Hypothesis Hdir : dict_get "dir" sg = Some (VStr dir).
Hypothesis Hpolicy : dict_get "policy" sg = Some policy.
Hypothesis Haccessid : dict_get "accessid" sg = Some accessid.
Hypothesis Hsignature : dict_get "signature" sg = Some sig.

  (** Once the signature is in, [upload_file] is the object-storage POST
      followed by the registration. *)
Lemma upload_file_after_signature :
    upload_file s content file_name mime_type srv w =
    match srv (oss_request s host (VStr dir) policy accessid sig content file_name mime_type) with
    | NetFailure =>
        (inl APIError, log_request (log_request w (sig_request s file_name))
                         (oss_request s host (VStr dir) policy accessid sig content file_name mime_type))
    | Response _ _ _ =>
        let w2 := log_request (log_request w (sig_request s file_name))
                    (oss_request s host (VStr dir) policy accessid sig content file_name mime_type) in
        let rq3 := register_request s file_name mime_type (VStr dir) in
        match make_request_outcome (srv rq3) with
        | inl e => (inl e, log_request w2 rq3)
        | inr file_data =>
            match getitem file_data "id" with
            | inl e => (inl e, log_request w2 rq3)
            | inr fid => (inr (VStr (host ++ dir), fid), log_request w2 rq3)
            end
        end
    end.
  Proof.
    unfold upload_file. rewrite bind_make_request. fold (sig_request s file_name).
    rewrite Hsig, (outcome_ok st1 hs1 b1 (VDict sd) Hst1 Hdata1).
    rewrite (getitem_dict sd "signature" _ Hsd), bind_lift_inr.
    rewrite (getitem_dict sg "dir" _ Hdir), bind_lift_inr.
    rewrite (getitem_dict sg "policy" _ Hpolicy), bind_lift_inr.
    rewrite (getitem_dict sg "accessid" _ Haccessid), bind_lift_inr.
    rewrite (getitem_dict sg "signature" _ Hsignature), bind_lift_inr.
    rewrite (getitem_dict sg "host" _ Hhost), bind_lift_inr.
    rewrite bind_try_http. change (py_str (VStr host)) with host.
    fold (oss_request s host (VStr dir) policy accessid sig content file_name mime_type).
    destruct (srv (oss_request s host (VStr dir) policy accessid sig content file_name mime_type))
      as [|st2 hs2 j2]; [reflexivity|].
    rewrite bind_lift_inr.
    rewrite bind_make_request. fold (register_request s file_name mime_type (VStr dir)).
    destruct (make_request_outcome _) as [e|file_data]; [reflexivity|].
    cbv beta. rewrite !bind_lift_inr.
    unfold bind, lift, ret. destruct (getitem file_data "id"); reflexivity.
  Qed.


End Upload.



(** ** C3: lookup in a collection *)

Lemma find_by_loop_first (attr : string) (sess : option session) (x : value) (ps : list loc)
    (srv : server) (w : world) :
  (forall p, In p ps -> exists o v, nth_error (w_heap w) p = Some o /\ dict_get attr o = Some v) ->
  find_by_loop attr sess x ps srv w =
  match first_match (w_heap w) attr x ps with
  | None => raise ValueError srv w
  | Some p => (_ <- match sess with Some s => project_update s p | None => ret tt end ;; ret p) srv w
  end.
Proof.
  induction ps as [|p ps IH]; intros Hall; [reflexivity|].
  destruct (Hall p (or_introl eq_refl)) as [o [v [Hp Hv]]].
  unfold first_match. simpl filter. unfold attr_matches at 1. rewrite Hp, Hv.
  simpl find_by_loop. unfold bind at 1, deref. rewrite Hp.
  unfold bind at 1, lift, getattr. rewrite Hv.
  destruct (py_eq v x); [reflexivity|].
  apply IH. intros q Hq. apply Hall. right. exact Hq.
Qed.

(** C3 (as stated, refuted): the refresh is a call of the project's
    [update] method, and an instance attribute named [update] (a field of the
    platform's data, say) shadows it: [find_by_id] raises TypeError instead of
    returning the matching project. *)
Lemma C3_update_attribute_raises :
  first_match [obj_of (dict_set "update" (VBool true) sample_listed_1)] "id" (VInt 1) [0%nat]
    = Some 0%nat /\
  find_by_id {| projects := [0%nat]; csession := Some sample_session |} (VInt 1)
    (project_server sample_listed_1)
    {| w_heap := [obj_of (dict_set "update" (VBool true) sample_listed_1)]; w_log := [];
       w_fs := {| fs_cwd := []; fs_nodes := [] |} |} =
  (inl TypeError,
   {| w_heap := [obj_of (dict_set "update" (VBool true) sample_listed_1)]; w_log := [];
      w_fs := {| fs_cwd := []; fs_nodes := [] |} |}).
Proof. split; vm_compute; reflexivity. Qed.

(** C3: [find_by_id] / [find_by_title] return the first project in list
    order whose [id] / [title] equals the argument, after refreshing it with
    [update] through the collection's session when there is one (an error of
    the refresh propagates); with no match they raise ValueError. *)
Theorem find_by_id_title_first_match (c : collection) (x y : value) (srv : server) (w : world) :
  (forall p, In p (projects c) -> exists o, nth_error (w_heap w) p = Some o /\
     dict_mem "id" o = true /\ dict_mem "title" o = true) ->
  find_by_id c x srv w = find_expected "id" c x srv w /\
  find_by_title c y srv w = find_expected "title" c y srv w.
Proof.
  intros Hall. unfold find_by_id, find_by_title, find_expected.
  split; apply find_by_loop_first; intros p Hp;
    destruct (Hall p Hp) as [o [Ho [Hid Htitle]]]; exists o;
    unfold dict_mem in *;
    [destruct (dict_get "id" o) as [v|] | destruct (dict_get "title" o) as [v|]];
    try discriminate; exists v; auto.
Qed.

Lemma find_by_id_title_first_match_witness :
  (find_by_id listed_collection (VInt 2) (project_server sample_listed_2) listed_world =
   find_expected "id" listed_collection (VInt 2) (project_server sample_listed_2) listed_world /\
   find_by_title listed_collection (VStr "B") (project_server sample_listed_2) listed_world =
   find_expected "title" listed_collection (VStr "B") (project_server sample_listed_2) listed_world) /\
  (exists w' o, find_by_id listed_collection (VInt 2) (project_server sample_listed_2) listed_world
                = (inr 1%nat, w') /\ nth_error (w_heap w') 1 = Some o /\
                dict_get "title" o = Some (VStr "B")) /\
  fst (find_by_id listed_collection (VInt 99) (project_server sample_listed_2) listed_world)
  = inl ValueError.
Proof.
  split; [|split].
  - apply find_by_id_title_first_match. intros p Hp. simpl in Hp.
    destruct Hp as [<- | [<- | []]]; eexists; (split; [reflexivity|]); vm_compute; auto.
  - do 2 eexists. split; [vm_compute; reflexivity|]. split; vm_compute; reflexivity.
  - vm_compute. reflexivity.
Defined.

(** ** C6: [Project.update] *)

Lemma list_upd_length {A} (l : list A) (n : nat) (x : A) : length (list_upd l n x) = length l.
Proof. revert n. induction l as [|y l IH]; intros [|n]; simpl; auto. Qed.

Lemma list_upd_same {A} (l : list A) (n : nat) (x : A) :
  (n < length l)%nat -> nth_error (list_upd l n x) n = Some x.
Proof.
  revert n. induction l as [|y l IH]; intros [|n] H; simpl in *; try lia; auto.
  apply IH. lia.
Qed.

Lemma list_upd_other {A} (l : list A) (n m : nat) (x : A) :
  m <> n -> nth_error (list_upd l n x) m = nth_error l m.
Proof.
  revert n m. induction l as [|y l IH]; intros [|n] [|m] H; simpl;
    try reflexivity; try lia; try (destruct m; reflexivity); apply IH; lia.
Qed.

Lemma list_upd_nth_same {A} (l : list A) (n : nat) (x : A) :
  nth_error l n = Some x -> list_upd l n x = l.
Proof.
  revert n. induction l as [|y l IH]; intros [|n] H; simpl in *; try discriminate.
  - injection H as ->. reflexivity.
  - rewrite (IH n H). reflexivity.
Qed.

Lemma list_upd_twice {A} (l : list A) (n : nat) (x y : A) :
  list_upd (list_upd l n x) n y = list_upd l n y.
Proof. revert n. induction l as [|z l IH]; intros [|n]; simpl; try rewrite IH; reflexivity. Qed.

Lemma world_eta (w : world) : {| w_heap := w_heap w; w_log := w_log w; w_fs := w_fs w |} = w.
Proof. destruct w. reflexivity. Qed.

(** The loop of [update] over entries that name no special attribute. *)
Lemma update_items_plain (p : loc) (items : dict) (srv : server) (w : world) (o : obj) :
  nth_error (w_heap w) p = Some o ->
  (forall k, In k (keys items) -> special_attr k = false) ->
  update_items p items srv w =
  (inr tt, {| w_heap := list_upd (w_heap w) p (set_items o items); w_log := w_log w; w_fs := w_fs w |}).
Proof.
  revert w o. induction items as [|[k v] items IH]; intros w o Hp Hsp.
  - cbn [update_items]. unfold set_items. cbn [fold_left].
    rewrite (list_upd_nth_same _ _ _ Hp), world_eta. reflexivity.
  - cbn [update_items]. unfold bind at 1, deref. rewrite Hp.
    unfold bind at 1, lift. rewrite setattr_plain by (apply Hsp; left; reflexivity).
    unfold bind at 1, store.
    rewrite (IH _ (dict_set k v o)); cbn [w_heap w_log w_fs].
    + rewrite list_upd_twice. reflexivity.
    + apply list_upd_same. apply nth_error_Some. congruence.
    + intros k' Hk'. apply Hsp. right. exact Hk'.
Qed.

(** The loop of [update] stopped by an entry whose [setattr] fails: the
    entries before it are set. *)
Lemma update_items_stop (p : loc) (pre post : dict) (k : string) (v : value) (e : exn)
    (srv : server) (w : world) (o : obj) :
  nth_error (w_heap w) p = Some o ->
  (forall k', In k' (keys pre) -> special_attr k' = false) ->
  setattr (set_items o pre) k v = inl e ->
  update_items p (app pre ((k, v) :: post)) srv w =
  (inl e, {| w_heap := list_upd (w_heap w) p (set_items o pre); w_log := w_log w; w_fs := w_fs w |}).
Proof.
  revert w o. induction pre as [|[k0 v0] pre IH]; intros w o Hp Hsp He.
  - cbn [app update_items]. unfold set_items in *. cbn [fold_left] in *.
    unfold bind at 1, deref. rewrite Hp. unfold bind at 1, lift. rewrite He.
    rewrite (list_upd_nth_same _ _ _ Hp), world_eta. reflexivity.
  - cbn [app update_items]. unfold bind at 1, deref. rewrite Hp.
    unfold bind at 1, lift. rewrite setattr_plain by (apply Hsp; left; reflexivity).
    unfold bind at 1, store.
    rewrite (IH _ (dict_set k0 v0 o)); cbn [w_heap w_log w_fs].
    + rewrite list_upd_twice. reflexivity.
    + apply list_upd_same. apply nth_error_Some. congruence.
    + intros k' Hk'. apply Hsp. right. exact Hk'.
    + exact He.
Qed.

(** Once its [GET] has succeeded, [update] is its loop, run after the request
    was sent; the [except APIError] clause re-raises what it catches. *)
Lemma project_update_items (s : session) (p : loc) (srv : server) (w : world) (o : obj) (id : value)
    (st : Z) (hs : list (string * string)) (b data : dict) :
  nth_error (w_heap w) p = Some o ->
  dict_mem "update" o = false ->
  dict_get "id" o = Some id ->
  srv (api_request s "get" ("project/" ++ py_str id) [] []) = Response st hs (Some (VDict b)) ->
  ~ (400 <= st < 600) ->
  dict_get "data" b = Some (VDict data) ->
  project_update s p srv w =
  update_items p data srv (log_request w (api_request s "get" ("project/" ++ py_str id) [] [])).
Proof.
  intros Hp Hm Hid Hsrv Hst Hd.
  unfold project_update. unfold bind at 1, deref at 1. rewrite Hp.
  unfold bind at 1, lift at 1, method_lookup. rewrite Hm.
  unfold try_except. unfold getattr. rewrite Hid, bind_lift_inr, bind_make_request, Hsrv.
  rewrite (outcome_ok st hs b (VDict data) Hst Hd).
  cbn [py_items]. rewrite bind_lift_inr.
  destruct (update_items p data srv _) as [[e|[]] w']; [destruct e; reflexivity | reflexivity].
Qed.

Lemma project_update_ok (s : session) (p : loc) (srv : server) (w : world) (o : obj) (id : value)
    (st : Z) (hs : list (string * string)) (b data : dict) :
  nth_error (w_heap w) p = Some o ->
  dict_mem "update" o = false ->
  dict_get "id" o = Some id ->
  srv (api_request s "get" ("project/" ++ py_str id) [] []) = Response st hs (Some (VDict b)) ->
  ~ (400 <= st < 600) ->
  dict_get "data" b = Some (VDict data) ->
  (forall k, In k (keys data) -> special_attr k = false) ->
  project_update s p srv w =
  (inr tt, {| w_heap := list_upd (w_heap w) p (set_items o data);
              w_log := w_log w ++ [api_request s "get" ("project/" ++ py_str id) [] []];
              w_fs := w_fs w |}).
Proof.
  intros Hp Hm Hid Hsrv Hst Hd Hsp.
  rewrite (project_update_items s p srv w o id st hs b data Hp Hm Hid Hsrv Hst Hd).
  rewrite (update_items_plain p data srv _ o); [reflexivity | exact Hp | exact Hsp].
Qed.




(** ** C7: [download_content] *)


(** *** Strings and paths *)

Lemma str_app_assoc (a b c : string) : (a ++ b) ++ c = a ++ (b ++ c).
Proof. induction a as [|x a IH]; simpl; [reflexivity|]. rewrite IH. reflexivity. Qed.

Lemma str_length_app (a b : string) : String.length (a ++ b) = (String.length a + String.length b)%nat.
Proof. induction a as [|x a IH]; simpl; [reflexivity|]. rewrite IH. reflexivity. Qed.

Lemma has_slash_app (a b : string) : has_slash (a ++ b) = has_slash a || has_slash b.
Proof. induction a as [|x a IH]; simpl; [reflexivity|]. rewrite IH, orb_assoc. reflexivity. Qed.

Lemma has_slash_char (s : string) : has_slash s = has_char "/" s.
Proof. induction s as [|x s IH]; simpl; [reflexivity|]. rewrite IH. reflexivity. Qed.

Lemma starts_no_slash (s : string) : has_slash s = false -> starts_with_slash s = false.
Proof. destruct s as [|x s]; simpl; [reflexivity|]. intros H. apply orb_false_iff in H. apply H. Qed.

Lemma starts_with_slash_app (a b : string) :
  a <> "" -> starts_with_slash (a ++ b) = starts_with_slash a.
Proof. destruct a; [contradiction | reflexivity]. Qed.

Lemma ends_with_slash_app (a b : string) :
  b <> "" -> ends_with_slash (a ++ b) = ends_with_slash b.
Proof.
  intros Hb. induction a as [|x a IH]; [reflexivity|].
  change (String x a ++ b) with (String x (a ++ b)).
  rewrite <- IH. cbn [ends_with_slash].
  destruct (a ++ b)%string eqn:E; [destruct a; simpl in E; [contradiction | discriminate] | reflexivity].
Qed.

Lemma ends_with_slash_split (s : string) :
  ends_with_slash s = true -> exists s', s = (s' ++ "/")%string.
Proof.
  induction s as [|x s IH]; [discriminate|]. destruct s as [|y s'].
  - intros H. apply Ascii.eqb_eq in H. subst x. exists "". reflexivity.
  - intros H. destruct (IH H) as [s'' E]. exists (String x s''). rewrite E. reflexivity.
Qed.

Lemma split_on_nonempty (c : ascii) (s : string) : split_on c s <> [].
Proof.
  induction s as [|x s IH]; simpl; [discriminate|].
  destruct (Ascii.eqb x c); [discriminate|]. destruct (split_on c s); discriminate.
Qed.

(** Splitting at a separator between two strings. *)
Lemma split_on_sep (c : ascii) (x y : string) :
  split_on c (x ++ String c y) = app (split_on c x) (split_on c y).
Proof.
  induction x as [|a x IH]; simpl.
  - rewrite Ascii.eqb_refl. reflexivity.
  - rewrite IH. destruct (Ascii.eqb a c); [reflexivity|].
    destruct (split_on c x) eqn:E; [exfalso; exact (split_on_nonempty c x E) | reflexivity].
Qed.

Lemma split_on_plain (c : ascii) (x : string) : has_char c x = false -> split_on c x = [x].
Proof.
  induction x as [|a x IH]; simpl; auto.
  intros H. apply orb_false_iff in H as [Ha Hx]. rewrite Ha, IH; auto.
Qed.

Lemma components_sep (x y : string) :
  components (x ++ String "/" y) = app (components x) (components y).
Proof. unfold components. rewrite split_on_sep. apply filter_app. Qed.

Lemma components_name (name : string) :
  has_char "/" name = false -> name <> "" -> components name = [name].
Proof.
  intros H Hne. unfold components. rewrite split_on_plain by exact H. simpl.
  destruct (String.eqb name "") eqn:E; [apply String.eqb_eq in E; contradiction | reflexivity].
Qed.

(** [os.path.join(out, name)] for a non-empty [out] and a name without a
    slash: the components of [out], then the name. *)
Lemma path_join_plain (out name : string) :
  out <> "" -> has_char "/" name = false ->
  exists sep, path_join out name = (out ++ sep ++ name)%string /\
    components (path_join out name) = app (components out) (components name).
Proof.
  intros Hout Hn. unfold path_join.
  rewrite (starts_no_slash name) by (rewrite has_slash_char; exact Hn).
  replace (String.eqb out "") with false by (symmetry; apply String.eqb_neq; exact Hout).
  cbn [orb]. destruct (ends_with_slash out) eqn:Eo.
  - exists "". split; [reflexivity|].
    destruct (ends_with_slash_split out Eo) as [out' ->].
    rewrite str_app_assoc. change ("/" ++ name)%string with (String "/" name).
    rewrite !components_sep. replace (components "") with (@nil string) by reflexivity.
    rewrite app_nil_r. reflexivity.
  - exists "/". split; [reflexivity|]. apply components_sep.
Qed.

Lemma has_char_app (c : ascii) (a b : string) : has_char c (a ++ b) = has_char c a || has_char c b.
Proof. induction a; simpl; auto. rewrite IHa, orb_assoc. reflexivity. Qed.

Lemma has_surrogate_app_l (a b : string) :
  has_surrogate (a ++ b) = false -> has_surrogate a = false.
Proof.
  induction a as [|x a IH]; [reflexivity|].
  change (String x a ++ b)%string with (String x (a ++ b)). cbn [has_surrogate].
  intros H. apply orb_false_iff in H as [H1 H2]. rewrite (IH H2), orb_false_r.
  destruct a as [|y [|z a']]; try reflexivity. exact H1.
Qed.

(** Without a lone surrogate, [os.fsencode] is the UTF-8 encoding itself. *)
Lemma fsencode_plain (s : string) : has_surrogate s = false -> fsencode s = Some s.
Proof.
  induction s as [|a s IH]; [reflexivity|]. cbn [has_surrogate].
  intros H. apply orb_false_iff in H as [H1 H2].
  destruct s as [|b [|c s3]].
  - reflexivity.
  - reflexivity.
  - cbn [fsencode] in *. rewrite H1. rewrite (IH H2). reflexivity.
Qed.

(** *** The file system *)

Lemma path_eqb_eq (a b : list string) : path_eqb a b = true <-> a = b.
Proof.
  revert b. induction a as [|x a IH]; intros [|y b]; simpl; split; intros H;
    try discriminate; try reflexivity.
  - apply andb_true_iff in H as [H1 H2]. apply String.eqb_eq in H1. apply IH in H2. congruence.
  - injection H as -> ->. rewrite String.eqb_refl. apply IH. reflexivity.
Qed.

Lemma path_eqb_refl (a : list string) : path_eqb a a = true.
Proof. apply path_eqb_eq. reflexivity. Qed.

Lemma node_set_twice (x : list string) (n1 n2 : node) (ns : list (list string * node)) :
  node_set x n2 (node_set x n1 ns) = node_set x n2 ns.
Proof.
  induction ns as [|[q m] ns IH]; simpl.
  - rewrite path_eqb_refl. reflexivity.
  - destruct (path_eqb x q) eqn:E; simpl.
    + rewrite path_eqb_refl. reflexivity.
    + rewrite E, IH. reflexivity.
Qed.

Lemma node_get_set (x y : list string) (n : node) (ns : list (list string * node)) :
  node_get y (node_set x n ns) = if path_eqb y x then Some n else node_get y ns.
Proof.
  induction ns as [|[q m] ns IH]; simpl.
  - reflexivity.
  - destruct (path_eqb x q) eqn:E; simpl.
    + apply path_eqb_eq in E. subst q. destruct (path_eqb y x); reflexivity.
    + rewrite IH. destruct (path_eqb y q) eqn:E2; [|reflexivity].
      apply path_eqb_eq in E2. subst q. destruct (path_eqb y x) eqn:E3; [|reflexivity].
      apply path_eqb_eq in E3. subst x. rewrite path_eqb_refl in E. discriminate.
Qed.

Lemma fs_set_twice (fs : filesys) (x : list string) (n1 n2 : node) :
  fs_set (fs_set fs x n1) x n2 = fs_set fs x n2.
Proof. unfold fs_set. cbn [fs_nodes fs_cwd]. rewrite node_set_twice. reflexivity. Qed.

Lemma fs_lookup_set (fs : filesys) (x y : list string) (n : node) :
  x <> [] ->
  fs_lookup (fs_set fs x n) y = if path_eqb y x then Some n else fs_lookup fs y.
Proof.
  intros Hx. unfold fs_lookup, fs_set. cbn [fs_nodes]. destruct y as [|a y].
  - destruct x; [contradiction | reflexivity].
  - apply node_get_set.
Qed.

Lemma walk_app (fs : filesys) (cur : list string) (l1 l2 : list string) :
  walk fs cur (app l1 l2) = match walk fs cur l1 with inl e => inl e | inr c => walk fs c l2 end.
Proof.
  revert cur. induction l1 as [|c l1 IH]; intros cur; [reflexivity|].
  cbn [app walk]. destruct (walk_step fs cur c); [reflexivity | apply IH].
Qed.

(** A path that names a directory: the walk over all its components, from
    where its lookup starts, ends in that directory. *)
Lemma lookup_dir_walk (fs : filesys) (out : string) (D : list string) :
  lookup_path fs out = inr (D, NDir) ->
  out <> "" /\ (String.length out < PATH_MAX)%nat /\
  exists start, start_dir fs out = inr start /\ walk fs start (components out) = inr D.
Proof.
  unfold lookup_path, parent_lookup.
  destruct (String.eqb out "") eqn:E0; [discriminate|].
  destruct (PATH_MAX <=? String.length out)%nat eqn:E1; [discriminate|].
  apply String.eqb_neq in E0. apply Nat.leb_gt in E1.
  destruct (start_dir fs out) as [e|start] eqn:Es; [discriminate|].
  intros H. split; [exact E0|]. split; [exact E1|]. exists start. split; [reflexivity|].
  destruct (rev (components out)) as [|last rdir] eqn:Er.
  - injection H as <-.
    assert (Hc : components out = []).
    { rewrite <- (rev_involutive (components out)), Er. reflexivity. }
    rewrite Hc. reflexivity.
  - assert (Hc : components out = app (rev rdir) [last]).
    { rewrite <- (rev_involutive (components out)), Er. reflexivity. }
    rewrite Hc, walk_app.
    destruct (walk fs start (rev rdir)) as [e|cur] eqn:Ew; [discriminate|].
    unfold classify in H. unfold walk, walk_step.
    destruct (String.eqb last ".") eqn:Ed; [injection H as <-; reflexivity|].
    destruct (String.eqb last "..") eqn:Edd; [injection H as <-; reflexivity|].
    destruct (NAME_MAX <? String.length last)%nat; [discriminate|].
    destruct (fs_lookup fs (app cur [last])) as [[|d]|]; try discriminate.
    + injection H as <-. reflexivity.
    + destruct (ends_with_slash out); discriminate.
Qed.

(** [open(out/name, 'w')] where [out] names the directory [D] and [name] is
    a plain file name that is not a directory in [D]: the file [D/name] is
    created or truncated. *)
Lemma sys_open_write_join (fs : filesys) (out name : string) (D : list string) :
  lookup_path fs out = inr (D, NDir) ->
  has_char "/" name = false ->
  (5 <= String.length name <= NAME_MAX)%nat ->
  ends_with_slash name = false ->
  (String.length (path_join out name) < PATH_MAX)%nat ->
  fs_lookup fs (app D [name]) <> Some NDir ->
  sys_open_write fs (path_join out name) = inr (app D [name], fs_set fs (app D [name]) (NFile "")).
Proof.
  intros Hout Hn Hlen Hend Hpath Hnd.
  destruct (lookup_dir_walk fs out D Hout) as [Hne [_ [start [Es Ew]]]].
  assert (Hname : name <> "") by (intros ->; simpl in Hlen; lia).
  destruct (path_join_plain out name Hne Hn) as [sep [Ej Hc]].
  rewrite (components_name name Hn Hname) in Hc.
  unfold sys_open_write, parent_lookup.
  replace (String.eqb (path_join out name) "") with false
    by (symmetry; apply String.eqb_neq; rewrite Ej; intros H;
        apply (f_equal String.length) in H; rewrite !str_length_app in H; simpl in H; lia).
  replace (PATH_MAX <=? String.length (path_join out name))%nat with false
    by (symmetry; apply Nat.leb_gt; exact Hpath).
  assert (Hs : start_dir fs (path_join out name) = start_dir fs out).
  { unfold start_dir. rewrite Ej, starts_with_slash_app by exact Hne. reflexivity. }
  rewrite Hs, Es, Hc, rev_app_distr. cbn [rev app]. rewrite rev_involutive, Ew.
  assert (Hcl : classify name = LName name).
  { unfold classify.
    destruct (String.eqb name ".") eqn:E1; [apply String.eqb_eq in E1; subst name; simpl in Hlen; lia|].
    destruct (String.eqb name "..") eqn:E2; [apply String.eqb_eq in E2; subst name; simpl in Hlen; lia|].
    reflexivity. }
  rewrite Hcl.
  assert (Hsn : (sep ++ name)%string <> "").
  { intros H. apply (f_equal String.length) in H. rewrite str_length_app in H. simpl in H. lia. }
  replace (ends_with_slash (path_join out name)) with false
    by (rewrite Ej, (ends_with_slash_app out _ Hsn), (ends_with_slash_app sep _ Hname), Hend; reflexivity).
  replace (NAME_MAX <? String.length name)%nat with false by (symmetry; apply Nat.ltb_ge; lia).
  destruct (fs_lookup fs (app D [name])) as [[|d]|]; [contradiction | reflexivity | reflexivity].
Qed.

(** *** Heap and request log *)

Lemma hl_ret {A} (a : A) : hl_pres (ret a).
Proof. intros srv w. split; reflexivity. Qed.

Lemma hl_raise {A} (e : exn) : hl_pres (@raise A e).
Proof. intros srv w. split; reflexivity. Qed.

Lemma hl_lift {A} (r : exn + A) : hl_pres (lift r).
Proof. intros srv w. split; reflexivity. Qed.

Lemma hl_get_fs : hl_pres get_fs.
Proof. intros srv w. split; reflexivity. Qed.

Lemma hl_set_fs (fs : filesys) : hl_pres (set_fs fs).
Proof. intros srv w. split; reflexivity. Qed.

Lemma hl_os_lift {A} (r : os_error + A) : hl_pres (os_lift r).
Proof. destruct r; [apply hl_raise | apply hl_ret]. Qed.

Lemma hl_bind {A B} (m : M A) (k : A -> M B) :
  hl_pres m -> (forall a, hl_pres (k a)) -> hl_pres (bind m k).
Proof.
  intros Hm Hk srv w. unfold bind. specialize (Hm srv w).
  destruct (m srv w) as [[e|a] w'] eqn:E; cbn [snd fst] in *; [exact Hm|].
  destruct (Hk a srv w') as [H1 H2]. destruct Hm as [H3 H4]. split; congruence.
Qed.

Lemma hl_try {A} (m : M A) (h : exn -> M A) :
  hl_pres m -> (forall e, hl_pres (h e)) -> hl_pres (try_except m h).
Proof.
  intros Hm Hh srv w. unfold try_except. specialize (Hm srv w).
  destruct (m srv w) as [[e|a] w'] eqn:E; cbn [snd fst] in *; [|exact Hm].
  destruct (Hh e srv w') as [H1 H2]. destruct Hm as [H3 H4]. split; congruence.
Qed.

Create HintDb hl.
#[local] Hint Resolve hl_ret hl_raise hl_lift hl_get_fs hl_set_fs hl_os_lift : hl.

Ltac hl_step :=
  match goal with
  | |- hl_pres (bind _ _) => apply hl_bind; intros
  | |- hl_pres (try_except _ _) => apply hl_try; intros
  | |- hl_pres (if ?b then _ else _) => destruct b
  | |- hl_pres (match ?e with _ => _ end) => destruct e
  | |- _ => solve [eauto with hl]
  end.

Lemma hl_mkdir (p : string) : hl_pres (mkdir p).
Proof. unfold mkdir. repeat hl_step. Qed.

Lemma hl_stat (p : string) : hl_pres (stat p).
Proof. unfold stat. repeat hl_step. Qed.

#[local] Hint Resolve hl_mkdir hl_stat : hl.

Lemma hl_path_exists (p : string) : hl_pres (path_exists p).
Proof. unfold path_exists. repeat hl_step. Qed.

Lemma hl_path_isdir (p : string) : hl_pres (path_isdir p).
Proof. unfold path_isdir. repeat hl_step. Qed.

#[local] Hint Resolve hl_path_exists hl_path_isdir : hl.

Lemma hl_mkdir_exist_ok (p : string) : hl_pres (mkdir_exist_ok p).
Proof. unfold mkdir_exist_ok. repeat hl_step. Qed.

#[local] Hint Resolve hl_mkdir_exist_ok : hl.

(** [os.makedirs] only touches the file system. *)
Lemma hl_makedirs (p : string) : hl_pres (makedirs p).
Proof.
  unfold makedirs. generalize (S (String.length p)) as fuel. intros fuel. revert p.
  induction fuel as [|fuel IH]; intros p; cbn [makedirs_go]; [apply hl_raise|].
  repeat hl_step.
Qed.

Lemma bind_inr {A B} (m : M A) (k : A -> M B) (srv : server) (w w' : world) (a : A) :
  m srv w = (inr a, w') -> bind m k srv w = k a srv w'.
Proof. intros H. unfold bind. rewrite H. reflexivity. Qed.

(** One [download_content] call, once [makedirs] has returned. *)
Lemma download_content_run (p : loc) (out : string) (o : obj) (i t : value) (c : string)
    (D : list string) (srv : server) (w w1 : world) :
  let name := (py_str i ++ "-" ++ py_str t ++ ".html")%string in
  nth_error (w_heap w) p = Some o ->
  dict_mem "download_content" o = false ->
  dict_get "id" o = Some i ->
  dict_get "title" o = Some t ->
  dict_get "content" o = Some (VStr c) ->
  has_slash (py_str i) = false ->
  has_slash (py_str t) = false ->
  has_surrogate (path_join out name) = false ->
  has_char NUL (path_join out name) = false ->
  (String.length (path_join out name) < PATH_MAX)%nat ->
  (String.length name <= NAME_MAX)%nat ->
  has_surrogate c = false ->
  makedirs out srv w = (inr tt, w1) ->
  lookup_path (w_fs w1) out = inr (D, NDir) ->
  fs_lookup (w_fs w1) (app D [name]) <> Some NDir ->
  let fs2 := fs_set (w_fs w1) (app D [name]) (NFile c) in
  download_content p out srv w =
    (inr (path_join out name), {| w_heap := w_heap w; w_log := w_log w; w_fs := fs2 |}) /\
  fs_lookup fs2 (app D [name]) = Some (NFile c) /\
  (forall q, q <> app D [name] -> fs_lookup fs2 q = fs_lookup (w_fs w1) q).
Proof.
  intros name Hp Hm Hi Ht Hc Hsi Hst Hsur Hnul Hpath Hnm Hsc Hmk Hout Hnd fs2.
  assert (Hn : has_char "/" name = false).
  { rewrite <- has_slash_char. unfold name. rewrite !has_slash_app, Hsi, Hst. reflexivity. }
  assert (Hlen : (5 <= String.length name)%nat).
  { unfold name. rewrite !str_length_app. simpl. lia. }
  assert (Hend : ends_with_slash name = false).
  { unfold name. replace (py_str i ++ "-" ++ py_str t ++ ".html")%string
      with ((py_str i ++ "-" ++ py_str t) ++ ".html")%string by (rewrite !str_app_assoc; reflexivity).
    rewrite ends_with_slash_app by discriminate. reflexivity. }
  pose proof (sys_open_write_join (w_fs w1) out name D Hout Hn (conj Hlen Hnm) Hend Hpath Hnd) as Hopen.
  destruct (hl_makedirs out srv w) as [Hh Hl]. rewrite Hmk in Hh, Hl. cbn [snd] in Hh, Hl.
  assert (HD : app D [name] <> []) by (destruct D; discriminate).
  split; [|split].
  - unfold download_content.
    rewrite (bind_inr (deref p) _ srv w w o) by (unfold deref; rewrite Hp; reflexivity).
    rewrite (bind_inr (lift _) _ srv w w tt) by (unfold lift, method_lookup; rewrite Hm; reflexivity).
    rewrite (bind_inr (makedirs out) _ srv w w1 tt Hmk).
    rewrite (bind_inr (lift _) _ srv w1 w1 i) by (unfold lift, getattr; rewrite Hi; reflexivity).
    rewrite (bind_inr (lift _) _ srv w1 w1 t) by (unfold lift, getattr; rewrite Ht; reflexivity).
    fold name.
    unfold try_except, open_write.
    rewrite (bind_inr (bind (lift (path_bytes (path_join out name))) _) _ srv w1
               {| w_heap := w_heap w1; w_log := w_log w1;
                  w_fs := fs_set (w_fs w1) (app D [name]) (NFile "") |} (app D [name])).
    2:{ rewrite (bind_inr (lift _) _ srv w1 w1 (path_join out name)).
        2:{ unfold lift, path_bytes. rewrite fsencode_plain by exact Hsur. rewrite Hnul. reflexivity. }
        unfold bind, get_fs, os_lift. rewrite Hopen. reflexivity. }
    rewrite (bind_inr (lift _) _ srv _ _ (VStr c)) by (unfold lift, getattr; rewrite Hc; reflexivity).
    unfold bind, write_text, lift, utf8_encode. rewrite Hsc.
    unfold get_fs, set_fs, ret, bind. cbn beta iota zeta. cbn [w_heap w_log w_fs].
    rewrite fs_set_twice, Hh, Hl. reflexivity.
  - unfold fs2. rewrite fs_lookup_set by exact HD. rewrite path_eqb_refl. reflexivity.
  - intros q Hq. unfold fs2. rewrite fs_lookup_set by exact HD.
    destruct (path_eqb q (app D [name])) eqn:E; [apply path_eqb_eq in E; contradiction | reflexivity].
Qed.



(** ** C8: [from_cookies] *)




(** * Further properties of the API *)

(** ** [_make_request] *)



(** ** [get_projects] and [get_project] *)

Lemma map_m_from_value (items : list value) (objs : list obj) (srv : server) (w : world) :
  Forall2 (fun v o => exists d, v = VDict d /\ project_from_dict d = inr o) items objs ->
  map_m from_value items srv w =
  (inr (seq (length (w_heap w)) (length items)),
   {| w_heap := w_heap w ++ objs; w_log := w_log w; w_fs := w_fs w |}).
Proof.
  intros H. revert w. induction H as [|v o items objs [d [-> Hd]] _ IH]; intros w.
  - simpl. rewrite app_nil_r. destruct w; reflexivity.
  - simpl map_m. unfold bind at 1. simpl from_value. unfold bind at 1, lift. rewrite Hd.
    unfold alloc. unfold bind at 1. rewrite IH. cbn [w_heap w_log w_fs].
    rewrite length_app. simpl. rewrite <- app_assoc. simpl.
    replace (length (w_heap w) + 1)%nat with (S (length (w_heap w))) by lia. reflexivity.
Qed.







(** ** [Project.upload] and [ProjectCollection.upload_all_content] *)

Lemma project_upload_spec (s : session) (p : loc) (srv : server) (w : world) (o : obj) (id : value) (d : dict) :
  nth_error (w_heap w) p = Some o -> dict_mem "upload" o = false ->
  dict_get "id" o = Some id -> project_to_dict o = inr d ->
  project_upload s p srv w =
  (match make_request_outcome (srv (api_request s "put" ("project/" ++ py_str id) [] d)) with
   | inl e => inl e
   | inr _ => inr tt
   end,
   log_request w (api_request s "put" ("project/" ++ py_str id) [] d)).
Proof.
  intros Hp Hm Hid Hd. unfold project_upload, bind at 1, deref. rewrite Hp.
  unfold bind at 1, lift at 1, method_lookup. rewrite Hm.
  unfold try_except, bind at 1, lift, getattr. rewrite Hid. unfold bind at 1. rewrite Hd.
  rewrite bind_make_request. destruct (make_request_outcome _) as [e|v].
  - destruct e; reflexivity.
  - reflexivity.
Qed.

Lemma to_dict_fields_missing (o : obj) (fs : list string) (f : string) :
  In f fs -> dict_get f o = None -> to_dict_fields o fs = inl AttributeError.
Proof.
  intros Hin Hf. induction fs as [|f0 fs IH]; [contradiction|]. simpl.
  unfold getattr at 1. destruct (dict_get f0 o) eqn:E0; [|reflexivity].
  destruct Hin as [<-|Hin]; [congruence|]. rewrite (IH Hin). reflexivity.
Qed.

(** ** C5: extension fields *)






(** X6: [upload] of an object that lacks one of the twelve known fields,
    and has no instance attribute named [upload] or [to_dict], raises
    AttributeError before anything is sent: no request, no change. *)
Theorem project_upload_missing_field (s : session) (p : loc) (srv : server) (w : world) (o : obj)
    (f : string) :
  nth_error (w_heap w) p = Some o -> dict_mem "upload" o = false -> dict_mem "to_dict" o = false ->
  In f known_fields -> dict_get f o = None ->
  project_upload s p srv w = (inl AttributeError, w).
Proof.
  intros Hp Hu Ht Hf Ho. unfold project_upload, bind at 1, deref. rewrite Hp.
  unfold bind at 1, lift at 1, method_lookup. rewrite Hu.
  unfold try_except, bind at 1, lift, getattr. destruct (dict_get "id" o) eqn:Eid; [|reflexivity].
  unfold bind at 1, project_to_dict, method_lookup. rewrite Ht.
  rewrite (to_dict_fields_missing o known_fields f Hf Ho). reflexivity.
Qed.

Lemma project_upload_missing_field_witness :
  project_upload sample_session 0%nat (project_server sample_project)
    {| w_heap := [delattr "cover" (obj_of sample_project)]; w_log := [];
       w_fs := w_fs empty_world |} =
  (inl AttributeError, {| w_heap := [delattr "cover" (obj_of sample_project)]; w_log := [];
                          w_fs := w_fs empty_world |}).
Proof.
  apply (project_upload_missing_field sample_session 0%nat _ _ (delattr "cover" (obj_of sample_project))
           "cover"); vm_compute; [reflexivity | reflexivity | reflexivity | tauto | reflexivity].
Defined.

Lemma iter_upload_ok (s : session) (srv : server) (ps : list loc) (w : world) :
  (forall p, In p ps -> exists o id d, nth_error (w_heap w) p = Some o /\
     dict_mem "upload" o = false /\ dict_get "id" o = Some id /\ project_to_dict o = inr d) ->
  (forall rq, rq_method rq = "put" -> exists st hs b v,
     srv rq = Response st hs (Some (VDict b)) /\ ~ (400 <= st < 600) /\ dict_get "data" b = Some v) ->
  exists rqs,
    iter_m (project_upload s) ps srv w =
      (inr tt, {| w_heap := w_heap w; w_log := w_log w ++ rqs; w_fs := w_fs w |}) /\
    Forall2 (fun p rq => exists o id d, nth_error (w_heap w) p = Some o /\
               dict_get "id" o = Some id /\ project_to_dict o = inr d /\
               rq = api_request s "put" ("project/" ++ py_str id) [] d) ps rqs.
Proof.
  intros Hps Hsrv. revert w Hps. induction ps as [|p ps IH]; intros w Hps.
  - exists []. split; [|constructor]. rewrite app_nil_r. destruct w; reflexivity.
  - destruct (Hps p (or_introl eq_refl)) as [o [id [d [Hp [Hm [Hid Hd]]]]]].
    destruct (Hsrv (api_request s "put" ("project/" ++ py_str id) [] d) eq_refl)
      as [st [hs [b [v [Hr [Hst Hv]]]]]].
    simpl iter_m. unfold bind at 1. rewrite (project_upload_spec s p srv w o id d Hp Hm Hid Hd), Hr.
    rewrite (outcome_ok st hs b v Hst Hv).
    destruct (IH (log_request w (api_request s "put" ("project/" ++ py_str id) [] d))) as [rqs [E F]].
    { intros q Hq. apply Hps. right. exact Hq. }
    rewrite E. exists (api_request s "put" ("project/" ++ py_str id) [] d :: rqs). split.
    + cbn [log_request w_heap w_log w_fs]. rewrite <- app_assoc. reflexivity.
    + constructor; [exists o, id, d; auto|]. exact F.
Qed.



(** ** [Project.update] is not atomic *)



(** ** Lookups without a session *)

Lemma find_by_loop_no_session (attr : string) (x : value) (ps : list loc) (srv : server) (w : world) :
  snd (find_by_loop attr None x ps srv w) = w.
Proof.
  induction ps as [|p ps IH]; simpl; [reflexivity|].
  unfold bind at 1, deref. destruct (nth_error (w_heap w) p) as [o|]; [|reflexivity].
  unfold bind at 1, lift, getattr. destruct (dict_get attr o) as [a|]; [|reflexivity].
  destruct (py_eq a x); [reflexivity|]. exact IH.
Qed.

(** X9: on a collection without a session, [find_by_id] and
    [find_by_title] send no request and change no project, whatever their
    outcome. *)
Theorem find_no_session_pure (c : collection) (x y : value) (srv : server) (w : world) :
  csession c = None ->
  snd (find_by_id c x srv w) = w /\ snd (find_by_title c y srv w) = w.
Proof.
  intros Hc. unfold find_by_id, find_by_title. rewrite Hc.
  split; apply find_by_loop_no_session.
Qed.

Lemma find_no_session_pure_witness :
  snd (find_by_id {| projects := [0%nat; 1%nat]; csession := None |} (VInt 2) server_500 listed_world)
    = listed_world /\
  snd (find_by_title {| projects := [0%nat; 1%nat]; csession := None |} (VStr "Z") server_500 listed_world)
    = listed_world.
Proof. apply find_no_session_pure. reflexivity. Defined.

(** ** Operations that raise no I/O exception *)

Lemma no_io_ret {A} (a : A) : no_io (ret a).
Proof. intros srv w e H. discriminate. Qed.

Lemma no_io_lift {A} (r : exn + A) : (forall e, r = inl e -> io_free e = true) -> no_io (lift r).
Proof. intros H srv w e He. exact (H e He). Qed.

Lemma no_io_bind {A B} (m : M A) (k : A -> M B) :
  no_io m -> (forall a, no_io (k a)) -> no_io (bind m k).
Proof.
  intros Hm Hk srv w e. unfold bind. specialize (Hm srv w).
  destruct (m srv w) as [[e'|a] w']; simpl.
  - intros H. injection H as <-. exact (Hm e' eq_refl).
  - apply Hk.
Qed.

Lemma no_io_getitem (v : value) (k : string) (e : exn) : getitem v k = inl e -> io_free e = true.
Proof. destruct v; simpl; try (intros H; injection H as <-; reflexivity). destruct (dict_get k d); intros H; [discriminate|injection H as <-; reflexivity]. Qed.

Lemma no_io_make_request (s : session) (meth ep : string) (params data : dict) :
  no_io (make_request s meth ep params data).
Proof.
  intros srv w e. rewrite make_request_spec. simpl fst. unfold make_request_outcome.
  destruct (srv _) as [|st hs j]; [intros H; injection H as <-; reflexivity|].
  destruct ((400 <=? st) && (st <? 600)); [intros H; injection H as <-; reflexivity|].
  destruct j as [d|]; [|intros H; injection H as <-; reflexivity].
  destruct (py_contains d "data") as [e'|[|]] eqn:Ec.
  - intros H; injection H as <-. destruct d; simpl in Ec; try discriminate; injection Ec as <-; reflexivity.
  - apply no_io_getitem.
  - intros H; injection H as <-. reflexivity.
Qed.

Lemma upload_file_no_io (s : session) (content file_name mime_type : string) :
  no_io (upload_file s content file_name mime_type).
Proof.
  unfold upload_file.
  apply no_io_bind; [apply no_io_make_request|intros data].
  do 5 (apply no_io_bind; [apply no_io_lift; apply no_io_getitem|intros ?]).
  apply no_io_bind.
  { intros srv w e. unfold try_except, bind at 1, lift.
    destruct (getitem _ "host") as [e'|host] eqn:Eh.
    - pose proof (no_io_getitem _ _ _ Eh) as Hf.
      destruct e'; simpl; intros H; injection H as <-; try reflexivity; simpl in Hf; discriminate Hf.
    - unfold bind, http. destruct (srv _); simpl; try discriminate.
      intros H; injection H as <-. reflexivity. }
  intros _. apply no_io_bind; [apply no_io_lift; apply no_io_getitem|intros dir].
  apply no_io_bind; [apply no_io_make_request|intros fd].
  do 2 (apply no_io_bind; [apply no_io_lift; apply no_io_getitem|intros ?]).
  apply no_io_bind.
  { apply no_io_lift. intros e H. unfold py_add in H.
    repeat match type of H with context [match ?x with _ => _ end] => destruct x end;
      try discriminate; injection H as <-; reflexivity. }
  intros url. apply no_io_bind; [apply no_io_lift; apply no_io_getitem|intros fid]. apply no_io_ret.
Qed.

Lemma try_reraise {A} (m : M A) (h : exn -> M A) :
  (forall e, h e = raise e) -> forall srv w, try_except m h srv w = m srv w.
Proof.
  intros Hh srv w. unfold try_except. destruct (m srv w) as [[e|a] w'] eqn:E; [|reflexivity].
  rewrite Hh. reflexivity.
Qed.

Lemma no_io_deref (p : loc) : no_io (deref p).
Proof.
  intros srv w e. unfold deref. destruct (nth_error _ _); simpl; [discriminate|].
  intros H; injection H as <-; reflexivity.
Qed.

Lemma no_io_method_lookup (o : obj) (m : string) : no_io (lift (method_lookup o m)).
Proof.
  apply no_io_lift. intros e H. unfold method_lookup in H.
  destruct (dict_mem m o); [injection H as <-; reflexivity|discriminate].
Qed.

Lemma to_dict_fields_err (o : obj) (fs : list string) (e : exn) :
  to_dict_fields o fs = inl e -> e = AttributeError.
Proof.
  induction fs as [|f fs IH]; simpl; [discriminate|].
  unfold getattr. destruct (dict_get f o); [|intros H'; injection H' as <-; reflexivity].
  destruct (to_dict_fields o fs); [intros H'; injection H' as ->; apply IH; reflexivity|discriminate].
Qed.

Lemma project_upload_no_io (s : session) (p : loc) : no_io (project_upload s p).
Proof.
  unfold project_upload. apply no_io_bind; [apply no_io_deref|intros o].
  apply no_io_bind; [apply no_io_method_lookup|intros _].
  intros srv w e. rewrite try_reraise by (intros []; reflexivity). revert srv w e.
  apply no_io_bind.
  { apply no_io_lift. intros e' H. unfold getattr in H. destruct (dict_get _ _); [discriminate|].
    injection H as <-; reflexivity. }
  intros id. apply no_io_bind.
  { apply no_io_lift. intros e' H. unfold project_to_dict, method_lookup in H.
    destruct (dict_mem "to_dict" o); [injection H as <-; reflexivity|].
    rewrite (to_dict_fields_err _ _ _ H). reflexivity. }
  intros d. apply no_io_bind; [apply no_io_make_request|intros _]. apply no_io_ret.
Qed.

Lemma project_upload_world (s : session) (p : loc) (srv : server) (w : world) :
  w_heap (snd (project_upload s p srv w)) = w_heap w /\ w_fs (snd (project_upload s p srv w)) = w_fs w.
Proof.
  assert (H : exists l, snd (project_upload s p srv w) = {| w_heap := w_heap w; w_log := l; w_fs := w_fs w |}).
  { unfold project_upload, bind at 1, deref.
    destruct (nth_error (w_heap w) p) as [o|]; [|exists (w_log w); destruct w; reflexivity]. cbv beta iota.
    unfold bind at 1, lift. destruct (method_lookup o "upload");
      [exists (w_log w); destruct w; reflexivity|]. cbv beta iota.
    rewrite try_reraise by (intros []; reflexivity).
    cbv [bind lift getattr ret].
    destruct (dict_get "id" o) as [id|]; [|exists (w_log w); destruct w; reflexivity].
    destruct (project_to_dict o) as [e|d]; [exists (w_log w); destruct w; reflexivity|].
    rewrite !make_request_spec. eexists. destruct (make_request_outcome _) as [[]|]; reflexivity. }
  destruct H as [l ->]. split; reflexivity.
Qed.

(** ** [upload_file_by_path] *)

Lemma read_bytes_world (path : string) (srv : server) (w : world) : snd (read_bytes path srv w) = w.
Proof.
  unfold read_bytes, bind, lift, get_fs, os_lift.
  destruct (path_bytes path) as [e|b]; [reflexivity|]. cbv beta iota.
  destruct (lookup_path (w_fs w) b) as [e|[q [|d]]]; reflexivity.
Qed.

Lemma read_text_world (path : string) (srv : server) (w : world) : snd (read_text path srv w) = w.
Proof.
  pose proof (read_bytes_world path srv w) as H.
  unfold read_text, bind at 1. destruct (read_bytes path srv w) as [[e|d] w']; cbn [snd] in *; subst; [reflexivity|].
  destruct (utf8_valid d); reflexivity.
Qed.

(** X10: [upload_file_by_path(path, mime)] first reads the file with
    [open(path, 'rb').read()].  If that read raises an OSError (no such
    file, a directory, ...), the call raises APIError; any other exception
    of the read (a ValueError for a NUL character in the path) escapes
    unchanged; in both cases nothing is sent and nothing changes.  If the
    read returns the bytes [c], the call is exactly [upload_file] of [c]
    under the last component of the path: no exception of the upload is
    rewrapped. *)
Theorem upload_file_by_path_reads (s : session) (path mime : string) (srv : server) (w : world) :
  (forall e, fst (read_bytes path srv w) = inl e ->
     upload_file_by_path s path mime srv w =
       (inl (match e with OSError _ | RequestException => APIError | e => e end), w)) /\
  (forall c, fst (read_bytes path srv w) = inr c ->
     upload_file_by_path s path mime srv w = upload_file s c (basename path) mime srv w).
Proof.
  pose proof (read_bytes_world path srv w) as Hw.
  split.
  - intros e H. unfold upload_file_by_path, try_except, bind at 1.
    destruct (read_bytes path srv w) as [r w']; cbn [fst snd] in *; subst r w'.
    destruct e; reflexivity.
  - intros c H. unfold upload_file_by_path, try_except, bind at 1.
    destruct (read_bytes path srv w) as [r w']; cbn [fst snd] in *; subst r w'.
    pose proof (upload_file_no_io s c (basename path) mime srv w) as Hio.
    destruct (upload_file s c (basename path) mime srv w) as [[e|v] w'] eqn:E; [|reflexivity].
    specialize (Hio e eq_refl). destruct e; try reflexivity; discriminate.
Qed.

Lemma upload_file_by_path_reads_witness :
  fst (read_bytes "docs/b.pdf" upload_mock docs_world) = inl (OSError FileNotFound) /\
  upload_file_by_path sample_session "docs/b.pdf" "application/pdf" upload_mock docs_world =
    (inl APIError, docs_world) /\
  fst (read_bytes "docs/a.pdf" upload_mock docs_world) = inr "PDF" /\
  upload_file_by_path sample_session "docs/a.pdf" "application/pdf" upload_mock docs_world =
    upload_file sample_session "PDF" "a.pdf" "application/pdf" upload_mock docs_world.
Proof.
  assert (H1 : fst (read_bytes "docs/b.pdf" upload_mock docs_world) = inl (OSError FileNotFound))
    by (vm_compute; reflexivity).
  assert (H2 : fst (read_bytes "docs/a.pdf" upload_mock docs_world) = inr "PDF") by (vm_compute; reflexivity).
  split; [exact H1|]. split.
  { exact (proj1 (upload_file_by_path_reads sample_session "docs/b.pdf" "application/pdf" upload_mock
                    docs_world) _ H1). }
  split; [exact H2|].
  exact (proj2 (upload_file_by_path_reads sample_session "docs/a.pdf" "application/pdf" upload_mock
                  docs_world) "PDF" H2).
Defined.

(** ** [Project.upload_from_file] *)

(** X11: for a project [p] with no instance attribute named
    [upload_from_file], [p.upload_from_file(path, session)] first reads the
    file with [open(path, 'r', encoding='utf-8').read()].  If that read
    raises an OSError, the call raises an OSError; any other exception of
    the read (a UnicodeDecodeError for bytes that are not UTF-8, a
    ValueError for a NUL in the path) escapes unchanged; in both cases
    nothing changes.  If the read returns the text [c], the call sets the
    project's [content] to [c] and then is exactly [p.upload(session)]; the
    new content stays in the object whatever the upload's outcome. *)
Theorem upload_from_file_sets_content (p : loc) (path : string) (s : session) (srv : server) (w : world)
    (o : obj) :
  nth_error (w_heap w) p = Some o ->
  dict_mem "upload_from_file" o = false ->
  (forall e, fst (read_text path srv w) = inl e ->
     upload_from_file p path s srv w =
       (inl (match e with OSError _ | RequestException => OSError OSGeneric | e => e end), w)) /\
  (forall c, fst (read_text path srv w) = inr c ->
     let w1 := {| w_heap := list_upd (w_heap w) p (dict_set "content" (VStr c) o);
                  w_log := w_log w; w_fs := w_fs w |} in
     upload_from_file p path s srv w = project_upload s p srv w1 /\
     nth_error (w_heap (snd (upload_from_file p path s srv w))) p = Some (dict_set "content" (VStr c) o)).
Proof.
  intros Hp Hm. pose proof (read_text_world path srv w) as Hw.
  assert (E0 : upload_from_file p path s srv w =
               try_except
                 (c <- read_text path ;; o' <- deref p ;; o'' <- lift (setattr o' "content" (VStr c)) ;;
                  _ <- store p o'' ;; project_upload s p)
                 (fun e => match e with
                           | OSError _ => raise (OSError OSGeneric)
                           | RequestException => raise (OSError OSGeneric)
                           | e => raise e
                           end) srv w).
  { unfold upload_from_file, bind at 1, deref. rewrite Hp. cbv beta iota.
    unfold bind at 1, lift, method_lookup. rewrite Hm. reflexivity. }
  split.
  - intros e H. rewrite E0. unfold try_except, bind at 1.
    destruct (read_text path srv w) as [r w']; cbn [fst snd] in *; subst r w'.
    destruct e; reflexivity.
  - intros c H w1.
    assert (E : upload_from_file p path s srv w = project_upload s p srv w1).
    { rewrite E0. unfold try_except, bind at 1.
      destruct (read_text path srv w) as [r w']; cbn [fst snd] in *; subst r w'.
      unfold bind at 1, deref. rewrite Hp. cbv beta iota.
      unfold bind at 1, lift. rewrite setattr_plain by reflexivity. cbv beta iota.
      unfold bind at 1, store. fold w1.
      pose proof (project_upload_no_io s p srv w1) as Hio.
      destruct (project_upload s p srv w1) as [[e|v] w'] eqn:E; [|reflexivity].
      specialize (Hio e eq_refl). destruct e; try reflexivity; discriminate. }
    split; [exact E|]. rewrite E, (proj1 (project_upload_world s p srv w1)).
    unfold w1. cbn [w_heap]. apply list_upd_same. apply nth_error_Some. congruence.
Qed.

Lemma upload_from_file_sets_content_witness :
  fst (read_text "old.html" server_500 html_world) = inl (OSError FileNotFound) /\
  upload_from_file 0%nat "old.html" sample_session server_500 html_world = (inl (OSError OSGeneric), html_world) /\
  fst (read_text "new.html" server_500 html_world) = inr "<p>y</p>" /\
  upload_from_file 0%nat "new.html" sample_session server_500 html_world =
    project_upload sample_session 0%nat server_500
      {| w_heap := [dict_set "content" (VStr "<p>y</p>") (obj_of sample_project)];
         w_log := []; w_fs := w_fs html_world |}.
Proof.
  assert (H1 : fst (read_text "old.html" server_500 html_world) = inl (OSError FileNotFound))
    by (vm_compute; reflexivity).
  assert (H2 : fst (read_text "new.html" server_500 html_world) = inr "<p>y</p>") by (vm_compute; reflexivity).
  destruct (upload_from_file_sets_content 0%nat "old.html" sample_session server_500 html_world
              (obj_of sample_project) eq_refl ltac:(vm_compute; reflexivity)) as [Ha _].
  destruct (upload_from_file_sets_content 0%nat "new.html" sample_session server_500 html_world
              (obj_of sample_project) eq_refl ltac:(vm_compute; reflexivity)) as [_ Hb].
  split; [exact H1|]. split; [exact (Ha _ H1)|]. split; [exact H2|].
  exact (proj1 (Hb _ H2)).
Defined.

(** ** [upload_file]: a malformed signature *)



(** ** [from_cookies_json] *)

Lemma set_cookie_cases (ck : list (value * value)) (item : value) (srv : server) (w : world) :
  (exists e, set_cookie ck item srv w = (inl e, w) /\ ~ cookie_item_ok item) \/
  (exists ck', set_cookie ck item srv w = (inr ck', w) /\ cookie_item_ok item).
Proof.
  destruct item as [| | | | |d];
    try (left; eexists; split; [reflexivity|]; intros [d' [n [x [E _]]]]; discriminate).
  unfold set_cookie, bind, lift. simpl getitem.
  destruct (dict_get "value" d) as [x|] eqn:Ev;
    [|left; eexists; split; [reflexivity|]; intros [d' [n [x' [E [_ [Hx _]]]]]];
      injection E as <-; congruence].
  destruct (dict_get "name" d) as [n|] eqn:En;
    [|left; eexists; split; [reflexivity|]; intros [d' [n' [x' [E [Hn _]]]]];
      injection E as <-; congruence].
  unfold py_setitem. destruct (hashable n) eqn:Eh.
  - right. eexists. split; [reflexivity|]. exists d, n, x. auto.
  - left. eexists. split; [reflexivity|]. intros [d' [n' [x' [E [Hn [_ Hh]]]]]].
    injection E as <-. congruence.
Qed.

Lemma fold_cookies (items : list value) (ck : list (value * value)) (srv : server) (w : world) :
  exists r, fold_m set_cookie items ck srv w = (r, w) /\
    ((exists ck', r = inr ck') <-> Forall cookie_item_ok items).
Proof.
  revert ck. induction items as [|item items IH]; intros ck.
  - exists (inr ck). split; [reflexivity|]. split; [constructor | eauto].
  - simpl fold_m. unfold bind at 1.
    destruct (set_cookie_cases ck item srv w) as [[e [E Hbad]] | [ck' [E Hok]]]; rewrite E.
    + exists (inl e). split; [reflexivity|]. split.
      * intros [c' H]; discriminate.
      * intros H. inversion H; contradiction.
    + destruct (IH ck') as [r [E' Hr]]. exists r. split; [exact E'|]. rewrite Hr. split.
      * intros H. constructor; assumption.
      * intros H. inversion H; assumption.
Qed.

Lemma from_cookies_auth (srv : server) (w : world) (e : exn) :
  fst (from_cookies srv w) = inl e -> e = AuthenticationError.
Proof.
  unfold from_cookies, try_except.
  lazymatch goal with |- context [match ?m srv w with _ => _ end] => destruct (m srv w) as [[e'|x] w'] end.
  - simpl. intros H. injection H as <-. reflexivity.
  - simpl. discriminate.
Qed.

(** X13: [from_cookies_json] fails with AuthenticationError, having sent
    nothing, when its argument is not valid JSON, is not iterable, or lists
    an item that is not an object with a hashable [name] and a [value].
    When every item is such an object it behaves exactly as [from_cookies]. *)
Theorem from_cookies_json_auth (j : option value) (srv : server) (w : world) :
  ((j = None \/ (exists v e, j = Some v /\ py_iter v = inl e) \/
    (exists v items, j = Some v /\ py_iter v = inr items /\ ~ Forall cookie_item_ok items)) ->
   from_cookies_json j srv w = (inl AuthenticationError, w)) /\
  (forall v items, j = Some v -> py_iter v = inr items -> Forall cookie_item_ok items ->
   from_cookies_json j srv w = from_cookies srv w).
Proof.
  split.
  - intros [-> | [[v [e [-> He]]] | [v [items [-> [Hi Hbad]]]]]].
    + reflexivity.
    + unfold from_cookies_json, try_except, bind, lift. rewrite He. reflexivity.
    + unfold from_cookies_json, try_except, bind at 1, lift. rewrite Hi.
      unfold bind at 1. destruct (fold_cookies items [] srv w) as [r [E Hr]]. rewrite E.
      destruct r as [e|ck]; [reflexivity|]. exfalso. apply Hbad, Hr. eauto.
  - intros v items -> Hi Hok. unfold from_cookies_json, try_except, bind at 1, lift. rewrite Hi.
    unfold bind at 1. destruct (fold_cookies items [] srv w) as [r [E Hr]]. rewrite E.
    destruct (proj2 Hr Hok) as [ck ->].
    pose proof (from_cookies_auth srv w) as Ha.
    destruct (from_cookies srv w) as [[e|x] w'] eqn:Ef; [|reflexivity].
    rewrite (Ha e eq_refl). reflexivity.
Qed.

Lemma from_cookies_json_auth_witness :
  from_cookies_json (Some (VList [VDict [("name", VStr "sid")]])) (redirect_server "https://x/?token=abc")
    empty_world = (inl AuthenticationError, empty_world) /\
  from_cookies_json (Some (VList [VDict [("name", VStr "sid"); ("value", VStr "v")]]))
    (redirect_server "https://x/?token=abc") empty_world =
  from_cookies (redirect_server "https://x/?token=abc") empty_world.
Proof.
  split.
  - apply (proj1 (from_cookies_json_auth (Some (VList [VDict [("name", VStr "sid")]]))
             (redirect_server "https://x/?token=abc") empty_world)).
    right. right. exists (VList [VDict [("name", VStr "sid")]]), [VDict [("name", VStr "sid")]].
    split; [reflexivity|]. split; [reflexivity|].
    intros H. inversion H as [|x l [d [n [x' [E [_ [Hx _]]]]]]]. injection E as <-. discriminate Hx.
  - apply (proj2 (from_cookies_json_auth (Some (VList [VDict [("name", VStr "sid"); ("value", VStr "v")]]))
             (redirect_server "https://x/?token=abc") empty_world)
             (VList [VDict [("name", VStr "sid"); ("value", VStr "v")]])
             [VDict [("name", VStr "sid"); ("value", VStr "v")]]); [reflexivity | reflexivity |].
    constructor; [|constructor]. exists [("name", VStr "sid"); ("value", VStr "v")], (VStr "sid"), (VStr "v").
    auto.
Defined.

(** ** [ProjectCollection.download_all_content] *)

Lemma dir_prefix_plain (s : string) : has_slash s = false -> dir_prefix s = "".
Proof.
  induction s as [|a s IH]; [reflexivity|]. cbn [has_slash dir_prefix].
  intros H. apply orb_false_iff in H as [H1 H2]. rewrite (IH H2). cbn. rewrite H1. reflexivity.
Qed.

(** For a name without slash, [os.makedirs] is the final [mkdir]. *)
Lemma makedirs_plain (name : string) (srv : server) (w : world) :
  has_slash name = false -> makedirs name srv w = mkdir_exist_ok name srv w.
Proof.
  intros H. assert (E : path_split name = ("", basename name)).
  { unfold path_split, dirname. rewrite (dir_prefix_plain name H). reflexivity. }
  unfold makedirs. cbn [makedirs_go]. rewrite !E. cbn [fst snd].
  destruct (String.eqb (basename name) ""); reflexivity.
Qed.

Lemma sys_mkdir_dir (fs : filesys) (b : string) (D : list string) :
  lookup_path fs b = inr (D, NDir) -> sys_mkdir fs b = inl FileExists.
Proof.
  unfold lookup_path, sys_mkdir. destruct (parent_lookup fs b) as [e|[[cur l] tr]]; [discriminate|].
  destruct l as [| | |c]; try reflexivity.
  destruct (NAME_MAX <? String.length c)%nat; [discriminate|].
  destruct (fs_lookup fs (app cur [c])) as [[|d]|]; [reflexivity| |discriminate]. destruct tr; discriminate.
Qed.

(** [makedirs]' final [mkdir] on a directory that exists changes nothing. *)
Lemma mkdir_exist_ok_dir (name b : string) (D : list string) (srv : server) (w : world) :
  path_bytes name = inr b -> lookup_path (w_fs w) b = inr (D, NDir) -> mkdir_exist_ok name srv w = (inr tt, w).
Proof.
  intros Hb Hl.
  assert (Hmk : mkdir name srv w = (inl (OSError FileExists), w)).
  { unfold mkdir. rewrite (bind_inr (lift (path_bytes name)) _ srv w w b) by (unfold lift; rewrite Hb; reflexivity).
    unfold bind, get_fs, os_lift. rewrite (sys_mkdir_dir _ _ _ Hl). reflexivity. }
  assert (Hst : stat name srv w = (inr NDir, w)).
  { unfold stat. rewrite (bind_inr (lift (path_bytes name)) _ srv w w b) by (unfold lift; rewrite Hb; reflexivity).
    unfold bind, get_fs, os_lift. rewrite Hl. reflexivity. }
  assert (Hd : path_isdir name srv w = (inr true, w)).
  { unfold path_isdir, try_except. rewrite (bind_inr (stat name) _ srv w w NDir Hst). reflexivity. }
  unfold mkdir_exist_ok, try_except. rewrite Hmk. cbv beta iota.
  rewrite (bind_inr (path_isdir name) _ srv w w true Hd). reflexivity.
Qed.

(** A lookup that reaches a directory only passes through directories, so
    it gives the same result in a file system that keeps them. *)
Section KeepDirs.
Variables fs fs' : filesys.
Hypothesis Hdirs : forall q, fs_lookup fs q = Some NDir -> fs_lookup fs' q = Some NDir.
Hypothesis Hcwd : fs_cwd fs' = fs_cwd fs.

Lemma walk_keep (cs : list string) : forall cur r, walk fs cur cs = inr r -> walk fs' cur cs = inr r.
Proof.
  induction cs as [|c cs IH]; intros cur r; cbn [walk]; [auto|]. unfold walk_step.
  destruct (String.eqb c "."); [apply IH|]. destruct (String.eqb c ".."); [apply IH|].
  destruct (NAME_MAX <? String.length c)%nat; [discriminate|].
  destruct (fs_lookup fs (app cur [c])) as [[|d]|] eqn:E; try discriminate.
  rewrite (Hdirs _ E). apply IH.
Qed.

Lemma parent_lookup_keep (b : string) r : parent_lookup fs b = inr r -> parent_lookup fs' b = inr r.
Proof.
  unfold parent_lookup, start_dir. rewrite Hcwd.
  destruct (String.eqb b ""); [discriminate|]. destruct (PATH_MAX <=? String.length b)%nat; [discriminate|].
  destruct (starts_with_slash b).
  - destruct (rev (components b)) as [|last rdir]; [auto|].
    destruct (walk fs [] (rev rdir)) eqn:Ew; [discriminate|]. rewrite (walk_keep _ _ _ Ew). auto.
  - destruct (fs_lookup fs (fs_cwd fs)) as [[|d]|] eqn:Ec; try discriminate. rewrite (Hdirs _ Ec).
    destruct (rev (components b)) as [|last rdir]; [auto|].
    destruct (walk fs (fs_cwd fs) (rev rdir)) eqn:Ew; [discriminate|]. rewrite (walk_keep _ _ _ Ew). auto.
Qed.

Lemma lookup_path_keep (b : string) (D : list string) :
  lookup_path fs b = inr (D, NDir) -> lookup_path fs' b = inr (D, NDir).
Proof.
  unfold lookup_path. destruct (parent_lookup fs b) as [e|[[cur l] tr]] eqn:E; [discriminate|].
  rewrite (parent_lookup_keep _ _ E). destruct l as [| | |c]; auto.
  destruct (NAME_MAX <? String.length c)%nat; [discriminate|].
  destruct (fs_lookup fs (app cur [c])) as [[|d]|] eqn:E2; try discriminate.
  - rewrite (Hdirs _ E2). auto.
  - destruct tr; discriminate.
Qed.

End KeepDirs.

Lemma fs_set_file_keeps_dirs (fs : filesys) (q : list string) (x : string) :
  fs_lookup fs q <> Some NDir ->
  forall r, fs_lookup fs r = Some NDir -> fs_lookup (fs_set fs q (NFile x)) r = Some NDir.
Proof.
  intros Hq r Hr. assert (Hne : q <> []) by (intros ->; apply Hq; reflexivity).
  rewrite fs_lookup_set by exact Hne. destruct (path_eqb r q) eqn:E; [|exact Hr].
  apply path_eqb_eq in E. subst. contradiction.
Qed.

Lemma has_slash_ends (s : string) : has_slash s = false -> ends_with_slash s = false.
Proof.
  induction s as [|a s IH]; [reflexivity|]. cbn [has_slash]. intros H. apply orb_false_iff in H as [H1 H2].
  destruct s as [|b s]; [exact H1|]. exact (IH H2).
Qed.

Lemma download_ok_set (heap : list obj) (out : string) (D : list string) (fs : filesys) (p : loc)
    (q : list string) (y : string) :
  q <> [] -> download_ok heap out D fs p -> download_ok heap out D (fs_set fs q (NFile y)) p.
Proof.
  intros Hq (o & i & t & x & H1 & H2 & H3 & H4 & H5 & H6 & H7 & H8 & H9 & H10 & H11 & H12 & H13).
  exists o, i, t, x. repeat (split; [assumption|]).
  rewrite fs_lookup_set by exact Hq. destruct (path_eqb _ _); [discriminate|exact H13].
Qed.

Lemma path_bytes_out (out name : string) :
  has_slash out = false -> out <> "" -> has_char "/" name = false ->
  has_surrogate (path_join out name) = false -> has_char NUL (path_join out name) = false ->
  path_bytes out = inr out.
Proof.
  intros Hs Hne Hn Hsur Hnul. destruct (path_join_plain out name Hne Hn) as [sep [E _]].
  rewrite E in Hsur, Hnul. unfold path_bytes. rewrite fsencode_plain by exact (has_surrogate_app_l _ _ Hsur).
  rewrite has_char_app in Hnul. apply orb_false_iff in Hnul as [Hnul _]. rewrite Hnul. reflexivity.
Qed.

Lemma download_loop (out : string) (D : list string) (srv : server) (heap : list obj) (ps : list loc) :
  has_slash out = false ->
  forall w, w_heap w = heap -> lookup_path (w_fs w) out = inr (D, NDir) ->
  (forall p, In p ps -> download_ok heap out D (w_fs w) p) ->
  iter_m (fun p => _ <- download_content p out ;; ret tt) ps srv w =
    (inr tt, {| w_heap := w_heap w; w_log := w_log w; w_fs := fold_left (download_step heap D) ps (w_fs w) |}).
Proof.
  intros Hs. induction ps as [|p ps IH]; intros w Hh Hout Hok.
  - destruct w; reflexivity.
  - destruct (Hok p (or_introl eq_refl))
      as (o & i & t & x & Hp & Hm & Hi & Ht & Hc & Hsi & Hst & Hsur & Hnul & Hpath & Hnm & Hsc & Hnd).
    rewrite <- Hh in Hp.
    assert (Hne : out <> "") by (intros ->; discriminate Hout).
    assert (Hn : has_char "/" (py_str i ++ "-" ++ py_str t ++ ".html") = false).
    { rewrite <- has_slash_char, !has_slash_app, Hsi, Hst. reflexivity. }
    assert (Hmk : makedirs out srv w = (inr tt, w)).
    { rewrite makedirs_plain by exact Hs.
      exact (mkdir_exist_ok_dir out out D srv w (path_bytes_out out _ Hs Hne Hn Hsur Hnul) Hout). }
    destruct (download_content_run p out o i t x D srv w w Hp Hm Hi Ht Hc Hsi Hst Hsur Hnul Hpath Hnm Hsc
                Hmk Hout Hnd) as [E _].
    cbn [iter_m].
    rewrite (bind_inr (bind (download_content p out) (fun _ => ret tt)) _ srv w _ tt)
      by (rewrite (bind_inr (download_content p out) _ srv w _ _ E); reflexivity).
    set (fs2 := fs_set (w_fs w) (app D [(py_str i ++ "-" ++ py_str t ++ ".html")%string]) (NFile x)).
    rewrite IH; cbn [w_heap w_log w_fs].
    + cbn [fold_left]. replace (download_step heap D (w_fs w) p) with fs2; [reflexivity|].
      unfold download_step, download_entry. rewrite <- Hh, Hp, Hi, Ht, Hc. reflexivity.
    + exact Hh.
    + apply (lookup_path_keep (w_fs w)); [apply fs_set_file_keeps_dirs; exact Hnd|reflexivity|exact Hout].
    + intros q Hq. apply download_ok_set; [destruct D; discriminate|exact (Hok q (or_intror Hq))].
Qed.

Lemma downloaded_lookup (heap : list obj) (D : list string) (ps : list loc) :
  forall fs q, fs_lookup (fold_left (download_step heap D) ps fs) q =
    match last_download heap D ps q with Some x => Some (NFile x) | None => fs_lookup fs q end.
Proof.
  induction ps as [|p ps IH]; intros fs q; [reflexivity|].
  cbn [fold_left last_download]. rewrite IH.
  destruct (last_download heap D ps q) as [x|]; [reflexivity|].
  unfold download_step. destruct (download_entry heap p) as [[n x]|]; [|reflexivity].
  rewrite fs_lookup_set by (destruct D; discriminate). destruct (path_eqb q (app D [n])); reflexivity.
Qed.



(** ** Logging in with a password *)

Lemma sdrop_app (a b : string) : sdrop (String.length a) (a ++ b) = b.
Proof. induction a; simpl; auto. Qed.

Lemma sdrop_length (n : nat) (s : string) :
  String.length (sdrop n s) = (String.length s - n)%nat.
Proof. revert s; induction n; intros [|c s]; simpl; auto; lia. Qed.

Lemma is_prefix_self (p x : string) : is_prefix p (p ++ x) = true.
Proof. induction p; simpl; auto. rewrite Ascii.eqb_refl; auto. Qed.

Lemma is_prefix_app_long (p v y : string) :
  (String.length p <= String.length v)%nat -> is_prefix p (v ++ y) = is_prefix p v.
Proof.
  revert v; induction p as [|a p IH]; intros [|b v]; simpl; intros H; auto; try lia.
  rewrite IH; auto; lia.
Qed.

Lemma is_prefix_app_short (p v y : string) :
  (String.length v < String.length p)%nat -> is_prefix p (v ++ y) = true ->
  is_prefix (sdrop (String.length v) p) y = true.
Proof.
  revert p; induction v as [|b v IH]; intros [|a p]; simpl; intros Hl H; auto; try lia.
  apply andb_prop in H as [_ H]. apply IH; auto; lia.
Qed.

Lemma is_substring_app_r (p u v : string) :
  is_prefix p v = true -> is_substring p (u ++ v) = true.
Proof.
  intros H; induction u as [|c u IH]; simpl.
  - destruct v; simpl; rewrite H; auto.
  - rewrite IH, orb_true_r; auto.
Qed.

Lemma no_early_match (sep pre x : string) :
  border_free sep -> is_substring sep pre = false ->
  forall u v, pre = u ++ v -> v <> "" -> is_prefix sep (v ++ sep ++ x) = false.
Proof.
  intros Hb Hs u v -> Hv.
  destruct (Nat.le_gt_cases (String.length sep) (String.length v)) as [Hl|Hl].
  - rewrite is_prefix_app_long by auto.
    destruct (is_prefix sep v) eqn:E; auto.
    rewrite (is_substring_app_r _ u _ E) in Hs; discriminate.
  - destruct (is_prefix sep (v ++ sep ++ x)) eqn:E; auto.
    apply is_prefix_app_short in E; auto.
    assert (Hk : (0 < String.length v < String.length sep)%nat)
      by (destruct v; simpl in *; [congruence | lia]).
    pose proof (Hb _ Hk) as Hf.
    rewrite is_prefix_app_long in E by (rewrite sdrop_length; lia).
    congruence.
Qed.

Section Split.
Variable sep : string.
Hypothesis Hsep : sep <> "".

Lemma split_str_go_fuel (n : nat) : forall s f1 f2,
  (String.length s < n)%nat -> (String.length s < f1)%nat -> (String.length s < f2)%nat ->
  split_str_go f1 sep s = split_str_go f2 sep s.
Proof.
  induction n as [|n IH]; intros s f1 f2 Hn H1 H2; [lia|].
  destruct f1 as [|f1]; [lia|]. destruct f2 as [|f2]; [lia|].
  destruct s as [|a s']; simpl; auto.
  destruct (is_prefix sep (String a s')) eqn:E.
  - f_equal. assert (Hl : (String.length (sdrop (String.length sep) (String a s')) < String.length (String a s'))%nat).
    { rewrite sdrop_length. destruct sep; [congruence|]. simpl; lia. }
    apply IH; lia.
  - simpl in *. rewrite (IH s' f1 f2) by lia. reflexivity.
Qed.

Lemma split_str_go_at (x : string) (f : nat) :
  split_str_go (S f) sep (sep ++ x) = "" :: split_str_go f sep x.
Proof.
  assert (E : is_prefix sep (sep ++ x) = true) by apply is_prefix_self.
  simpl split_str_go. destruct (sep ++ x) as [|a s'] eqn:Ex.
  - destruct sep; [congruence | discriminate].
  - rewrite E. rewrite <- Ex, sdrop_app. reflexivity.
Qed.

Lemma split_str_go_head (pre x : string) : forall f,
  (String.length (pre ++ sep ++ x) < f)%nat ->
  (forall u v, pre = u ++ v -> v <> "" -> is_prefix sep (v ++ sep ++ x) = false) ->
  exists f', (String.length x < f')%nat /\
    split_str_go f sep (pre ++ sep ++ x) = pre :: split_str_go f' sep x.
Proof.
  induction pre as [|c pre IH]; intros f Hf Hno.
  - destruct f as [|f]; [lia|]. exists f. split.
    + assert (Hl : (0 < String.length sep)%nat) by (destruct sep; [congruence | simpl; lia]).
      simpl in Hf. rewrite str_length_app in Hf. lia.
    + simpl (EmptyString ++ _). apply split_str_go_at.
  - destruct f as [|f]; [lia|].
    simpl (String c pre ++ _). simpl split_str_go.
    pose proof (Hno "" (String c pre) eq_refl ltac:(discriminate)) as H0.
    simpl (_ ++ _) in H0. rewrite H0.
    destruct (IH f) as [f' [Hf' E]].
    + simpl in Hf; lia.
    + intros u v Hp Hv. apply (Hno (String c u) v); [simpl; congruence | auto].
    + exists f'; split; auto. rewrite E. reflexivity.
Qed.

Lemma split_str_head (pre x : string) :
  (forall u v, pre = u ++ v -> v <> "" -> is_prefix sep (v ++ sep ++ x) = false) ->
  split_str sep (pre ++ sep ++ x) = pre :: split_str sep x.
Proof.
  intros Hno. unfold split_str.
  destruct (split_str_go_head pre x (String.length (pre ++ sep ++ x) + 1) ltac:(lia) Hno) as [f' [Hf' E]].
  rewrite E. f_equal. apply (split_str_go_fuel (S (String.length x))); lia.
Qed.

Lemma split_str_go_none (s : string) : forall f,
  (String.length s < f)%nat -> is_substring sep s = false -> split_str_go f sep s = [s].
Proof.
  induction s as [|a s IH]; intros [|f] Hf Hs; simpl in Hf; try lia; simpl; auto.
  simpl in Hs. apply orb_false_iff in Hs as [Hp Hs]. rewrite Hp, (IH f) by (assumption || lia). reflexivity.
Qed.

Lemma split_str_none (s : string) :
  is_substring sep s = false -> split_str sep s = [s].
Proof. intros Hs. apply split_str_go_none; auto; lia. Qed.

End Split.

Lemma CSRF_MARKER_border_free : border_free CSRF_MARKER.
Proof.
  intros k Hk. vm_compute in Hk.
  do 21 (destruct k as [|k]; [solve [lia | vm_compute; reflexivity]|]). lia.
Qed.

Lemma CSRF_END_border_free : border_free CSRF_END.
Proof.
  intros k Hk. vm_compute in Hk.
  do 2 (destruct k as [|k]; [solve [lia | vm_compute; reflexivity]|]). lia.
Qed.

Lemma csrf_token_between (pre tok rest : string) :
  is_substring CSRF_MARKER pre = false ->
  is_substring CSRF_MARKER (tok ++ CSRF_END ++ rest) = false ->
  is_substring CSRF_END tok = false ->
  csrf_token (pre ++ CSRF_MARKER ++ tok ++ CSRF_END ++ rest) = Some tok.
Proof.
  intros H1 H2 H3. unfold csrf_token.
  rewrite split_str_head by (discriminate || exact (no_early_match _ _ _ CSRF_MARKER_border_free H1)).
  rewrite split_str_none by (discriminate || exact H2). cbn [nth_error].
  rewrite split_str_head by (discriminate || exact (no_early_match _ _ _ CSRF_END_border_free H3)).
  reflexivity.
Qed.

Lemma csrf_marker_found (pre x : string) :
  is_substring CSRF_MARKER (pre ++ CSRF_MARKER ++ x) = true.
Proof. apply is_substring_app_r, is_prefix_self. Qed.

(** X15: when the index page cannot be fetched or lacks the CSRF marker,
    logging in fails with [AuthenticationError] after that single request:
    the credentials are never sent. *)
Theorem from_username_password_no_marker (u p : string) (srv : page_server) (w : world) :
  (srv index_request = PageFailure \/
   exists st hs text, srv index_request = Page st hs text /\ is_substring CSRF_MARKER text = false) ->
  from_username_password u p srv w = (inl AuthenticationError, log_request w index_request).
Proof.
  intros [H | (st & hs & text & H & Hm)]; unfold from_username_password; rewrite H; [reflexivity|].
  rewrite Hm. reflexivity.
Qed.

Lemma from_username_password_no_marker_witness :
  from_username_password "a@b.c" "secret" (login_site 302 "<html></html>") empty_world
  = (inl AuthenticationError, log_request empty_world index_request).
Proof.
  apply from_username_password_no_marker. right.
  exists 200, [], "<html></html>". split; vm_compute; reflexivity.
Defined.





(** ** Listing, printing and JSON of projects *)


Lemma nth_error_mid {A} (pre post : list A) (x : A) : nth_error (app pre (x :: post)) (length pre) = Some x.
Proof. induction pre; simpl; auto. Qed.

(** What [__init__] stores under [id] and [title]. *)
Lemma project_init_id_title (d : dict) (o : obj) :
  project_init d = inr o -> dict_get "__dict__" d = None ->
  getattr o "id" = inr (kwarg_or_none d "id") /\ getattr o "title" = inr (kwarg_or_none d "title").
Proof.
  intros H Hd. unfold getattr.
  rewrite (project_init_param d o "id" H Hd eq_refl), (project_init_param d o "title" H Hd eq_refl).
  split; reflexivity.
Qed.

Lemma list_fresh (srv : server) (w : world) (post : list obj) (ds : list dict) (objs : list obj) :
  Forall2 (fun d o => project_from_dict d = inr o /\ dict_get "__dict__" d = None) ds objs ->
  forall pre, w_heap w = app pre (app objs post) ->
  map_m project_id_title (seq (length pre) (length objs)) srv w =
  (inr (map (fun d => (kwarg_or_none d "id", kwarg_or_none d "title")) ds), w).
Proof.
  induction 1 as [|d o ds objs [Hd Hdd] _ IH]; intros pre Hh; [reflexivity|].
  cbn [length seq map map_m].
  destruct (project_init_id_title d o Hd Hdd) as [Hi Ht].
  assert (Ep : project_id_title (length pre) srv w =
               (inr (kwarg_or_none d "id", kwarg_or_none d "title"), w)).
  { change (app (o :: objs) post) with (o :: app objs post) in Hh.
    unfold project_id_title, deref, bind, lift, ret. rewrite Hh, nth_error_mid, Hi, Ht. reflexivity. }
  unfold bind at 1. rewrite Ep.
  assert (Hh' : w_heap w = app (app pre [o]) (app objs post)) by (rewrite Hh, <- app_assoc; reflexivity).
  specialize (IH (app pre [o]) Hh'). rewrite length_app in IH. simpl in IH.
  replace (length pre + 1)%nat with (S (length pre)) in IH by lia.
  unfold bind at 1. rewrite IH. reflexivity.
Qed.

Lemma Forall_Forall2_inr (ds : list dict) :
  Forall (fun d => exists o, project_from_dict d = inr o) ds ->
  Forall (fun d => dict_get "__dict__" d = None) ds ->
  exists objs, Forall2 (fun d o => project_from_dict d = inr o /\ dict_get "__dict__" d = None) ds objs.
Proof.
  induction 1 as [|d ds [o Ho] _ IH]; intros Hn; [exists []; constructor|].
  inversion Hn as [|? ? Hd Hn']; subst. destruct (IH Hn') as [objs Hobjs].
  exists (o :: objs); constructor; auto.
Qed.



Lemma split_on_none (c : ascii) (x : string) : has_char c x = false -> split_on c x = [x].
Proof.
  induction x as [|a x IH]; simpl; auto.
  intros H. apply orb_false_iff in H as [Ha Hx]. rewrite Ha, IH; auto.
Qed.

Lemma split_on_app (c : ascii) (x y : string) :
  has_char c x = false -> split_on c (x ++ String c y) = x :: split_on c y.
Proof.
  induction x as [|a x IH]; simpl; intros H.
  - rewrite Ascii.eqb_refl. reflexivity.
  - apply orb_false_iff in H as [Ha Hx]. rewrite Ha, IH; auto.
Qed.

Lemma split_on_concat (c : ascii) (l : list string) :
  l <> [] -> Forall (fun x => has_char c x = false) l ->
  split_on c (concat_sep (String c EmptyString) l) = l.
Proof.
  intros Hne H. induction H as [|x l Hx Hl IH]; [congruence|].
  destruct l as [|y l].
  - simpl. apply split_on_none; auto.
  - change (concat_sep (String c EmptyString) (x :: y :: l))
      with (x ++ String c (concat_sep (String c EmptyString) (y :: l))).
    rewrite split_on_app by auto. rewrite IH by discriminate. reflexivity.
Qed.

Lemma map_project_str (srv : server) (w : world) (ps : list loc) :
  Forall (one_line (w_heap w)) ps ->
  exists strs, map_m project_str ps srv w = (inr strs, w) /\
    Forall2 (fun line p => project_str p srv w = (inr line, w)) strs ps /\
    Forall (fun x => has_char NL x = false) strs.
Proof.
  induction 1 as [|p ps (o & i & t & Ho & Hi & Ht & Hni & Hnt) _ (strs & E & H2 & Hn)].
  - exists []. repeat split; constructor.
  - set (line := "(" ++ py_str i ++ ")" ++ TAB ++ py_str t).
    assert (Ep : project_str p srv w = (inr line, w)).
    { unfold project_str, deref, bind, lift, ret. rewrite Ho, Hi, Ht. reflexivity. }
    exists (line :: strs). split; [|split].
    + cbn [map_m]. unfold bind at 1. rewrite Ep. unfold bind at 1. rewrite E. reflexivity.
    + constructor; auto.
    + constructor; auto. unfold line. rewrite !has_char_app, Hni, Hnt. reflexivity.
Qed.

(** X19: for a non-empty collection whose projects have an [id] and a
    [title] printing without a newline, [str] of the collection changes
    nothing and its lines are exactly the [str] of each project, in order. *)
Theorem collection_str_lines (c : collection) (srv : server) (w : world) :
  projects c <> [] -> Forall (one_line (w_heap w)) (projects c) ->
  exists s, collection_str c srv w = (inr s, w) /\
    Forall2 (fun line p => project_str p srv w = (inr line, w)) (split_on NL s) (projects c).
Proof.
  intros Hne Hall. destruct (map_project_str srv w _ Hall) as (strs & E & H2 & Hn).
  exists (concat_sep (String NL EmptyString) strs). split.
  - unfold collection_str, bind. rewrite E. reflexivity.
  - rewrite split_on_concat; auto.
    intros ->. inversion H2; subst. congruence.
Qed.

Lemma collection_str_lines_witness :
  exists s, collection_str listed_collection server_500 listed_world = (inr s, listed_world) /\
    Forall2 (fun line p => project_str p server_500 listed_world = (inr line, listed_world))
      (split_on NL s) (projects listed_collection).
Proof.
  apply collection_str_lines.
  - discriminate.
  - repeat constructor; do 3 eexists; repeat split; vm_compute; reflexivity.
Defined.

Lemma to_dict_fields_ext (o o' : obj) (fs : list string) :
  (forall f, In f fs -> dict_get f o' = dict_get f o) -> to_dict_fields o' fs = to_dict_fields o fs.
Proof.
  induction fs as [|f fs IH]; simpl; intros H; auto.
  unfold getattr. rewrite (H f (or_introl eq_refl)), IH; auto.
Qed.

Lemma py_or_idem (x : value) : py_or (py_or x (VList [])) (VList []) = py_or x (VList []).
Proof. unfold py_or. destruct (truthy x) eqn:E; [rewrite E|]; reflexivity. Qed.

(** X20: for a project built by [__init__] from a dict with no
    [__dict__], [to_dict] or [to_json] key, [Project.from_json] of its
    [to_json] builds a project with the same [to_dict]. *)
Theorem project_json_roundtrip (d : dict) (o : obj) :
  project_init d = inr o -> dict_get "__dict__" d = None ->
  dict_get "to_dict" d = None -> dict_get "to_json" d = None ->
  exists j o', project_to_json o = inr j /\ project_from_json (Some j) = inr o' /\
    project_to_dict o' = project_to_dict o.
Proof.
  intros Hinit Hd Htd Htj. destruct (project_init_to_dict d o Hinit Hd Htd) as (r & Er & Hk & Hg).
  assert (Hself : dict_get "self" r = None) by (rewrite Hg; reflexivity).
  destruct (project_init_ok r Hself) as [o' Ho'].
  { intros f Hf. rewrite Hk. unfold known_fields. apply in_or_app; auto. }
  { intros k Hk'. rewrite Hk in Hk'. apply known_not_special. exact Hk'. }
  assert (Hrd : dict_get "__dict__" r = None) by (rewrite Hg; reflexivity).
  exists (VDict r), o'. split.
  { unfold project_to_json, method_lookup, dict_mem.
    rewrite (project_init_absent d o "to_json" Hinit Hd eq_refl Htj), Er. reflexivity. }
  split; [exact Ho'|].
  unfold project_to_dict, method_lookup, dict_mem.
  rewrite (project_init_absent d o "to_dict" Hinit Hd eq_refl Htd).
  rewrite (project_init_absent r o' "to_dict" Ho' Hrd eq_refl ltac:(rewrite Hg; reflexivity)).
  apply to_dict_fields_ext. intros f Hf.
  rewrite (project_init_param r o' f Ho' Hrd (known_param f Hf)).
  rewrite (project_init_param d o f Hinit Hd (known_param f Hf)).
  unfold kwarg_or_none. rewrite Hg.
  assert (Hm : mem_str f known_fields = true) by (apply mem_str_In; auto). rewrite Hm.
  rewrite (project_init_param d o f Hinit Hd (known_param f Hf)).
  destruct (mem_str f list_fields); [rewrite py_or_idem; reflexivity|].
  destruct (mem_str f required_fields); reflexivity.
Qed.

Lemma project_json_roundtrip_witness :
  exists j o', project_to_json (obj_of sample_project) = inr j /\ project_from_json (Some j) = inr o' /\
    project_to_dict o' = project_to_dict (obj_of sample_project).
Proof.
  apply (project_json_roundtrip sample_project); vm_compute; reflexivity.
Defined.

(** ** The command line *)

Lemma fs_pres_ret {A} (a : A) : fs_pres (ret a).
Proof. intros srv w; reflexivity. Qed.

Lemma fs_pres_raise {A} (e : exn) : fs_pres (@raise A e).
Proof. intros srv w; reflexivity. Qed.

Lemma fs_pres_lift {A} (r : exn + A) : fs_pres (lift r).
Proof. intros srv w; reflexivity. Qed.

Lemma fs_pres_deref (p : loc) : fs_pres (deref p).
Proof. intros srv w. unfold deref. destruct (nth_error _ _); reflexivity. Qed.

Lemma fs_pres_store (p : loc) (o : obj) : fs_pres (store p o).
Proof. intros srv w; reflexivity. Qed.

Lemma fs_pres_alloc (o : obj) : fs_pres (alloc o).
Proof. intros srv w; reflexivity. Qed.

Lemma fs_pres_bind {A B} (m : M A) (k : A -> M B) :
  fs_pres m -> (forall a, fs_pres (k a)) -> fs_pres (bind m k).
Proof.
  intros Hm Hk srv w. specialize (Hm srv w). unfold bind.
  destruct (m srv w) as [[e|a] w'] eqn:E; simpl in *; auto.
  rewrite Hk. exact Hm.
Qed.

Lemma fs_pres_try {A} (m : M A) (h : exn -> M A) :
  fs_pres m -> (forall e, fs_pres (h e)) -> fs_pres (try_except m h).
Proof.
  intros Hm Hh srv w. specialize (Hm srv w). unfold try_except.
  destruct (m srv w) as [[e|a] w'] eqn:E; simpl in *; auto.
  rewrite Hh. exact Hm.
Qed.

Lemma fs_pres_make_request (s : session) (meth ep : string) (params data : dict) :
  fs_pres (make_request s meth ep params data).
Proof. intros srv w. rewrite make_request_spec. reflexivity. Qed.

Create HintDb fs_pres_db.
#[local] Hint Resolve fs_pres_ret fs_pres_raise fs_pres_lift fs_pres_deref fs_pres_store
  fs_pres_alloc fs_pres_bind fs_pres_try fs_pres_make_request : fs_pres_db.

Lemma fs_pres_map_m {A B} (f : A -> M B) (l : list A) :
  (forall a, fs_pres (f a)) -> fs_pres (map_m f l).
Proof. intros Hf. induction l; simpl; auto with fs_pres_db. Qed.

Lemma fs_pres_get_projects (s : session) (offset limit : Z) : fs_pres (get_projects s offset limit).
Proof.
  unfold get_projects. apply fs_pres_bind; auto with fs_pres_db. intros d.
  apply fs_pres_bind; auto with fs_pres_db. intros items.
  apply fs_pres_bind; auto with fs_pres_db. apply fs_pres_map_m.
  intros [] ; unfold from_value; auto with fs_pres_db.
Qed.

Lemma fs_pres_update_items (p : loc) (items : dict) : fs_pres (update_items p items).
Proof.
  induction items as [|[k v] items IH]; cbn [update_items]; [auto with fs_pres_db|].
  repeat (apply fs_pres_bind; auto with fs_pres_db; intros ?).
Qed.

Lemma fs_pres_project_update (s : session) (p : loc) : fs_pres (project_update s p).
Proof.
  unfold project_update. apply fs_pres_bind; auto with fs_pres_db. intros o.
  apply fs_pres_bind; auto with fs_pres_db. intros _. apply fs_pres_try.
  - repeat (apply fs_pres_bind; auto using fs_pres_update_items with fs_pres_db; intros ?).
  - intros []; auto with fs_pres_db.
Qed.

Lemma fs_pres_find_by_loop (attr : string) (sess : option session) (x : value) (ps : list loc) :
  fs_pres (find_by_loop attr sess x ps).
Proof.
  induction ps as [|p ps IH]; simpl; auto with fs_pres_db.
  apply fs_pres_bind; auto with fs_pres_db. intros o.
  apply fs_pres_bind; auto with fs_pres_db. intros a.
  destruct (py_eq a x); auto.
  apply fs_pres_bind; auto with fs_pres_db.
  destruct sess; auto using fs_pres_project_update with fs_pres_db.
Qed.

Lemma read_text_fs (path : string) (srv : server) (w w' : world) :
  w_fs w = w_fs w' -> fst (read_text path srv w) = fst (read_text path srv w').
Proof.
  intros H. cbv [read_text read_bytes bind lift get_fs os_lift ret raise]. rewrite H.
  destruct (path_bytes path) as [e|b]; [reflexivity|].
  destruct (lookup_path (w_fs w') b) as [e|[q [|d]]]; try reflexivity. cbn [fst snd].
  destruct (utf8_valid d); reflexivity.
Qed.



(** X22: an id of 0 is false in [upload_project] and [download_project]:
    with [--id 0], and no title as the argument group requires, both only
    list the projects and then do nothing. *)
Theorem cli_id_zero_ignored (s : session) (file : string) (srv : server) (w : world) :
  cli_upload_project s (VInt 0) VNone file srv w = (_ <- get_projects s 0 1000 ;; ret tt) srv w /\
  cli_download_project s (VInt 0) VNone false srv w = (_ <- get_projects s 0 1000 ;; ret tt) srv w.
Proof.
  split; unfold cli_upload_project, cli_download_project, bind;
    destruct (get_projects s 0 1000 srv w) as [[e|c] w1]; reflexivity.
Qed.
